(** * pixel: vertex buffers, the per-target draw cache, polygons and transforms

    A shallow embedding of [graphics.go] and [transform.go] of the pixel
    library, and the properties of its specification checked against it.

    Conventions of the embedding:
    - Go's [int] is [Z].  Slice lengths are bounded by the address space, far
      below 2^63, so the arithmetic on lengths done by the code never wraps.
    - [float64] and [float32] are IEEE 754 binary64 and binary32 values,
      represented by [spec_float] with the operations of [SpecFloat] at
      precision 53/24 and maximal exponent 1024/128.  Every operation rounds
      on its own (round to nearest, ties to even).
    - A method with a pointer receiver returns an [outcome]: the receiver's
      new state, or the run-time panic that stopped it together with the state
      the receiver had at that moment. *)

From Stdlib Require Import ZArith Lia Bool.
From Stdlib Require Import Floats.SpecFloat.
From stdpp Require Import base list gmap.

Open Scope Z_scope.

(** ** Floating point numbers *)

Module Float.

Abbreviation float64 := spec_float (only parsing).
Abbreviation float32 := spec_float (only parsing).

Definition prec64 : Z := 53.
Definition emax64 : Z := 1024.
Definition prec32 : Z := 24.
Definition emax32 : Z := 128.

Definition add64 : float64 -> float64 -> float64 := SFadd prec64 emax64.
Definition sub64 : float64 -> float64 -> float64 := SFsub prec64 emax64.
Definition mul64 : float64 -> float64 -> float64 := SFmul prec64 emax64.
Definition div64 : float64 -> float64 -> float64 := SFdiv prec64 emax64.
Definition neg64 : float64 -> float64 := SFopp.

Definition add32 : float32 -> float32 -> float32 := SFadd prec32 emax32.
Definition mul32 : float32 -> float32 -> float32 := SFmul prec32 emax32.
Definition neg32 : float32 -> float32 := SFopp.

(** The conversion [float32(x)] of a [float64]: rounding to binary32. *)
Definition to32 (x : float64) : float32 :=
  match x with
  | S754_finite s m e => binary_round prec32 emax32 s m e
  | _ => x
  end.

(** The conversion [float64(x)] of a [float32]; it is always exact. *)
Definition to64 (x : float32) : float64 :=
  match x with
  | S754_finite s m e => binary_round prec64 emax64 s m e
  | _ => x
  end.

(** An integer constant of the source used at type [float64]. *)
Definition const64 (n : Z) : float64 := binary_normalize prec64 emax64 n 0 false.

(** An integer constant of the source used at type [float32]. *)
Definition const32 (n : Z) : float32 := binary_normalize prec32 emax32 n 0 false.

(** Go's [==] on floating point numbers: [-0 == +0], and NaN equals nothing. *)
Definition eqb (x y : spec_float) : bool := SFeqb x y.

Definition is_zero (x : spec_float) : bool :=
  match x with S754_zero _ => true | _ => false end.

Definition is_finite (x : spec_float) : bool :=
  match x with S754_zero _ | S754_finite _ _ _ => true | _ => false end.

(** A finite value that is a number of binary32: its mantissa and exponent
    are the canonical ones of the format. *)
Definition finite32 (x : float32) : bool :=
  is_finite x && valid_binary prec32 emax32 x.

End Float.

(** ** Vectors and colours

    [Vec] and [NRGBA] are declared in other files of the package. *)

(** Modelled from the spec: the 2D vector type [Vec] ("an existing 2D vector
    type with standard operations").  In the package it is a [complex128]:
    [V(x, y)] is [complex(x, y)], [X] and [Y] are the real and the imaginary
    part, and [*] on vectors is Go's complex multiplication. *)
Record Vec := complex { real : Float.float64; imag : Float.float64 }.

Definition V (x y : Float.float64) : Vec := complex x y.
Definition X (u : Vec) : Float.float64 := real u.
Definition Y (u : Vec) : Float.float64 := imag u.

Definition Vec_mul (u v : Vec) : Vec :=
  complex
    (Float.sub64 (Float.mul64 (real u) (real v)) (Float.mul64 (imag u) (imag v)))
    (Float.add64 (Float.mul64 (real u) (imag v)) (Float.mul64 (imag u) (real v))).

(** An untyped integer constant used where a [Vec] is expected. *)
Definition Vec_const (n : Z) : Vec := complex (Float.const64 n) (Float.const64 0).

(** Go's [==] on [complex128]. *)
Definition Vec_eqb (u v : Vec) : bool :=
  Float.eqb (real u) (real v) && Float.eqb (imag u) (imag v).

(** Modelled from the spec: the colour type [NRGBA] ("RGBA in [0,1]^4"), a
    struct of four [float64] channels. *)
Record NRGBA := { R : Float.float64; G : Float.float64; B : Float.float64; A : Float.float64 }.

(** ** Panics *)

Inductive panic :=
| InvalidLength          (* "%T.Update: invalid triangles length" *)
| SliceBoundsOutOfRange  (* run-time error of a slice expression *)
| IndexOutOfRange.       (* run-time error of an index expression *)

Inductive outcome (St : Type) :=
| Done (s : St)
| Panicked (e : panic) (s : St).
Arguments Done {St} s.
Arguments Panicked {St} e s.

(** ** TrianglesData *)

Record Vertex := { Position : Vec; Color : NRGBA; Texture : Vec }.

Abbreviation TrianglesData := (list Vertex) (only parsing).

Definition withPosition (p : Vec) (v : Vertex) : Vertex :=
  {| Position := p; Color := Color v; Texture := Texture v |}.
Definition withColor (c : NRGBA) (v : Vertex) : Vertex :=
  {| Position := Position v; Color := c; Texture := Texture v |}.
Definition withTexture (t : Vec) (v : Vertex) : Vertex :=
  {| Position := Position v; Color := Color v; Texture := t |}.

Definition TrianglesData_Len (td : TrianglesData) : Z := Z.of_nat (length td).

(** The vertex appended by [SetLen]: [{V(0, 0), NRGBA{1, 1, 1, 1}, V(-1, -1)}]. *)
Definition defaultVertex : Vertex :=
  {| Position := V (Float.const64 0) (Float.const64 0);
     Color := {| R := Float.const64 1; G := Float.const64 1;
                 B := Float.const64 1; A := Float.const64 1 |};
     Texture := V (Float.const64 (-1)) (Float.const64 (-1)) |}.

(** [for i := 0; i < needAppend; i++ { *td = append( *td, default) }] *)
Fixpoint appendDefaults (needAppend : nat) (td : TrianglesData) : TrianglesData :=
  match needAppend with
  | O => td
  | S n => appendDefaults n (td ++ [defaultVertex])
  end.

(** The slice expression [( *td)[:len]].  It panics unless
    [0 <= len <= cap( *td)]; [SetLen] evaluates it only when [len < len( *td)],
    so that the bound that can be violated is the lower one. *)
Definition sliceTo (td : TrianglesData) (len : Z) : outcome TrianglesData :=
  if (len <? 0) || (TrianglesData_Len td <? len)
  then Panicked SliceBoundsOutOfRange td
  else Done (take (Z.to_nat len) td).

Definition TrianglesData_SetLen (td : TrianglesData) (len : Z) : outcome TrianglesData :=
  let td1 :=
    if len >? TrianglesData_Len td
    then appendDefaults (Z.to_nat (len - TrianglesData_Len td)) td
    else td in
  if len <? TrianglesData_Len td1 then sliceTo td1 len else Done td1.

Definition MakeTrianglesData (len : Z) : outcome TrianglesData :=
  TrianglesData_SetLen [] len.

(** *** The Triangles interface and its optional capabilities

    [updateData] inspects the dynamic type of its argument: a
    [*TrianglesData], or any other implementation of [Triangles], which may or
    may not implement [TrianglesPosition], [TrianglesColor] and
    [TrianglesTexture].  The accessors of such an implementation are taken to
    be defined on every index that [updateData] passes to them. *)

Record Source := {
  src_Len : Z;
  src_Position : option (Z -> Vec);
  src_Color : option (Z -> NRGBA);
  src_Texture : option (Z -> Vec)
}.

Inductive Triangles :=
| IsTrianglesData (t : TrianglesData)
| OtherTriangles (s : Source).

Definition Triangles_Len (t : Triangles) : Z :=
  match t with
  | IsTrianglesData t => TrianglesData_Len t
  | OtherTriangles s => src_Len s
  end.

(** The builtin [copy(dst, src)]: the first [min(len(dst), len(src))] elements
    of [dst] are overwritten. *)
Definition copy (dst src : TrianglesData) : TrianglesData :=
  take (length dst) src ++ drop (length src) dst.

Definition updateData (td : TrianglesData) (t : Triangles) : TrianglesData :=
  match t with
  | IsTrianglesData t => copy td t
  | OtherTriangles s =>
      let td1 :=
        match src_Position s with
        | Some position => imap (fun i v => withPosition (position (Z.of_nat i)) v) td
        | None => td
        end in
      let td2 :=
        match src_Color s with
        | Some color => imap (fun i v => withColor (color (Z.of_nat i)) v) td1
        | None => td1
        end in
      match src_Texture s with
      | Some texture => imap (fun i v => withTexture (texture (Z.of_nat i)) v) td2
      | None => td2
      end
  end.

Definition TrianglesData_Update (td : TrianglesData) (t : Triangles) : outcome TrianglesData :=
  if negb (TrianglesData_Len td =? Triangles_Len t)
  then Panicked InvalidLength td
  else Done (updateData td t).

(** ** The draw cache: TrianglesDrawer *)

(** Modelled from the spec: a [Target] is used by the drawer as the key of its
    cache ("keyed by target identity") and as the factory of its per-target
    resource; here it is the identity alone. *)
Abbreviation Target := positive (only parsing).

(** Modelled from the spec: [TargetTriangles], the per-target resource made by
    [Target.MakeTriangles] ("a resource exposes Resize(n), UpdateFrom(vertexData)
    and Draw()").  It holds its own copy of the vertices, resized and updated
    as a [TrianglesData] is, and [tt_draws] counts its draw calls. *)
Record TargetTriangles := { tt_data : TrianglesData; tt_draws : nat }.

Definition withData (d : TrianglesData) (t : TargetTriangles) : TargetTriangles :=
  {| tt_data := d; tt_draws := tt_draws t |}.

(** Running [k] on the receiver that [o] leaves; a panic of [o] stops the
    caller, whose state at that moment is [lift] of the callee's. *)
Definition andThen {St Tt : Type} (o : outcome St) (lift : St -> Tt) (k : St -> outcome Tt)
    : outcome Tt :=
  match o with
  | Done s => k s
  | Panicked e s => Panicked e (lift s)
  end.

Definition TargetTriangles_SetLen (t : TargetTriangles) (len : Z) : outcome TargetTriangles :=
  andThen (TrianglesData_SetLen (tt_data t) len) (fun d => withData d t)
          (fun d => Done (withData d t)).

Definition TargetTriangles_Update (t : TargetTriangles) (src : Triangles) : outcome TargetTriangles :=
  andThen (TrianglesData_Update (tt_data t) src) (fun d => withData d t)
          (fun d => Done (withData d t)).

Definition TargetTriangles_Draw (t : TargetTriangles) : TargetTriangles :=
  {| tt_data := tt_data t; tt_draws := S (tt_draws t) |}.

Definition Target_MakeTriangles (target : Target) (src : Triangles) : outcome TargetTriangles :=
  andThen (MakeTrianglesData (Triangles_Len src)) (fun d => {| tt_data := d; tt_draws := O |})
          (fun d => TargetTriangles_Update {| tt_data := d; tt_draws := O |} src).

(** The embedded [Triangles] of a [TrianglesDrawer] is a pointer to the data of
    its owner: the drawer sees the owner's current vertices.  The methods take
    what it points to as their argument [src]. *)
Record TrianglesDrawer := { tris : gmap Target TargetTriangles; dirty : bool }.

(** The body of the loop of [flush]: [t.SetLen(td.Len()); t.Update(td.Triangles)]. *)
Definition flushBody (src : Triangles) (t : TargetTriangles) : outcome TargetTriangles :=
  andThen (TargetTriangles_SetLen t (Triangles_Len src)) id
          (fun t1 => TargetTriangles_Update t1 src).

(** [for _, t := range td.tris]: the entries are visited in some order, here
    the one of [map_to_list], and a panic stops the loop. *)
Fixpoint flushLoop (src : Triangles) (entries : list (Target * TargetTriangles))
    (m : gmap Target TargetTriangles) : outcome (gmap Target TargetTriangles) :=
  match entries with
  | [] => Done m
  | (k, t) :: rest =>
      match flushBody src t with
      | Done t1 => flushLoop src rest (<[k := t1]> m)
      | Panicked e t1 => Panicked e (<[k := t1]> m)
      end
  end.

Definition TrianglesDrawer_flush (src : Triangles) (td : TrianglesDrawer) : outcome TrianglesDrawer :=
  if negb (dirty td) then Done td
  else
    andThen (flushLoop src (map_to_list (tris td)) (tris td))
            (fun m => {| tris := m; dirty := false |})
            (fun m => Done {| tris := m; dirty := false |}).

Definition TrianglesDrawer_Draw (src : Triangles) (td : TrianglesDrawer) (target : Target)
    : outcome TrianglesDrawer :=
  andThen (TrianglesDrawer_flush src td) id (fun td1 =>
    match tris td1 !! target with
    | Some tri =>
        Done {| tris := <[target := TargetTriangles_Draw tri]> (tris td1); dirty := dirty td1 |}
    | None =>
        andThen (Target_MakeTriangles target src) (fun _ => td1) (fun tri =>
          Done {| tris := <[target := TargetTriangles_Draw tri]> (tris td1);
                  dirty := dirty td1 |})
    end).

Definition TrianglesDrawer_Dirty (td : TrianglesDrawer) : TrianglesDrawer :=
  {| tris := tris td; dirty := true |}.

(** ** TrianglesData: Copy and the accessors *)

(** [Copy]: a new buffer is resized to the length of this one and updated
    from it. *)
Definition TrianglesData_Copy (td : TrianglesData) : outcome TrianglesData :=
  andThen (TrianglesData_SetLen [] (TrianglesData_Len td)) id
          (fun copyTd => TrianglesData_Update copyTd (IsTrianglesData td)).






(** ** Polygon *)

Record Polygon := { data : TrianglesData; td : TrianglesDrawer; col : NRGBA }.

Definition withPolygonData (d : TrianglesData) (p : Polygon) : Polygon :=
  {| data := d; td := td p; col := col p |}.

(** A counted loop [for i := start; ...; i++] of [count] iterations over a
    state; a panic of the body stops it. *)
Fixpoint forLoop {St : Type} (body : Z -> St -> outcome St) (i : Z) (count : nat) (s : St)
    : outcome St :=
  match count with
  | O => Done s
  | S n => andThen (body i s) id (fun s1 => forLoop body (i + 1) n s1)
  end.

(** The assignment [data[i].Position = points[j]]; either index expression
    panics when it is out of range, before anything is written. *)
Definition assignPosition (points : list Vec) (j : Z) (i : Z) (d : TrianglesData)
    : outcome TrianglesData :=
  if (j <? 0) || (i <? 0) then Panicked IndexOutOfRange d
  else
    match points !! Z.to_nat j, d !! Z.to_nat i with
    | Some v, Some _ => Done (alter (withPosition v) (Z.to_nat i) d)
    | _, _ => Panicked IndexOutOfRange d
    end.

(** The body of the first loop of [SetPoints]. *)
Definition fanBody (points : list Vec) (i : Z) (d : TrianglesData) : outcome TrianglesData :=
  andThen (assignPosition points 0 ((i - 2) * 3 + 0) d) id (fun d1 =>
  andThen (assignPosition points (i - 1) ((i - 2) * 3 + 1) d1) id (fun d2 =>
  assignPosition points i ((i - 2) * 3 + 2) d2)).

Section ColorModel.

(** [color.Color] of the standard library and the conversion
    [NRGBAModel.Convert(c).(NRGBA)], declared in another file of the package. *)
Variable color_Color : Type.
Variable NRGBAModel_Convert : color_Color -> NRGBA.

Definition Polygon_SetColor (c : color_Color) (p : Polygon) : Polygon :=
  let col1 := NRGBAModel_Convert c in
  {| data := map (withColor col1) (data p);
     td := TrianglesDrawer_Dirty (td p);
     col := col1 |}.

Definition Polygon_Color (p : Polygon) : NRGBA := col p.

Definition Polygon_SetPoints (points : list Vec) (p : Polygon) : outcome Polygon :=
  let n := Z.of_nat (length points) in
  andThen (TrianglesData_SetLen (data p) (3 * (n - 2))) (fun d => withPolygonData d p) (fun d1 =>
  andThen (forLoop (fanBody points) 2 (Z.to_nat (n - 2)) d1) (fun d => withPolygonData d p) (fun d2 =>
  Done {| data := map (withColor (col p)) d2;
          td := TrianglesDrawer_Dirty (td p);
          col := col p |})).

Definition Polygon_Points (p : Polygon) : list Vec := map Position (data p).

(** [&Polygon{data: TrianglesData{}}] with [td = TrianglesDrawer{Triangles: &p.data}]:
    the other fields have their zero values. *)
Definition emptyPolygon : Polygon :=
  {| data := [];
     td := {| tris := ∅; dirty := false |};
     col := {| R := S754_zero false; G := S754_zero false;
               B := S754_zero false; A := S754_zero false |} |}.

Definition NewPolygon (c : color_Color) (points : list Vec) : outcome Polygon :=
  Polygon_SetPoints points (Polygon_SetColor c emptyPolygon).

(** [Draw] unbinds the picture of the target and draws through the cache. *)
Definition Polygon_Draw (p : Polygon) (t : Target) : outcome Polygon :=
  andThen (TrianglesDrawer_Draw (IsTrianglesData (data p)) (td p) t)
          (fun d => {| data := data p; td := d; col := col p |})
          (fun d => Done {| data := data p; td := d; col := col p |}).

(** The public operations on a Polygon after its construction. *)
Inductive PolygonOp :=
| OpSetColor (c : color_Color)
| OpSetPoints (points : list Vec)
| OpDraw (t : Target).

Definition applyOp (op : PolygonOp) (p : Polygon) : outcome Polygon :=
  match op with
  | OpSetColor c => Done (Polygon_SetColor c p)
  | OpSetPoints points => Polygon_SetPoints points p
  | OpDraw t => Polygon_Draw p t
  end.

(** The polygons that a program can hold: the results of [NewPolygon], and
    what an operation on such a polygon leaves, whether it returns or panics
    (a program may recover from the panic and go on with the polygon). *)
Inductive reachable : Polygon -> Prop :=
| reachable_new c points p :
    NewPolygon c points = Done p -> reachable p
| reachable_op op p p1 :
    reachable p -> applyOp op p = Done p1 -> reachable p1
| reachable_recovered op e p p1 :
    reachable p -> applyOp op p = Panicked e p1 -> reachable p1.

End ColorModel.

(** ** Sprite *)

(** Modelled from the spec: a [Picture] "must expose a 2D size
    ([Bounds().Size])"; the size is all that [Sprite] reads of it. *)
Record Picture := { Bounds_Size : Vec }.

(** [XY] of a vector: its two coordinates. *)
Definition XY (u : Vec) : Float.float64 * Float.float64 := (X u, Y u).

(** The assignment [data[i].Position = v]; the index expression panics when
    it is out of range. *)
Definition storePosition (i : Z) (v : Vec) (d : TrianglesData) : outcome TrianglesData :=
  if i <? 0 then Panicked IndexOutOfRange d
  else
    match d !! Z.to_nat i with
    | Some _ => Done (alter (withPosition v) (Z.to_nat i) d)
    | None => Panicked IndexOutOfRange d
    end.

Module Sprite.

(** [pic] is a pointer: [None] is nil, the value of the field before the first
    [SetPicture].  The pictures passed to the methods are not nil. *)
Record Sprite := { data : TrianglesData; td : TrianglesDrawer; pic : option Picture }.

Definition withData (d : TrianglesData) (s : Sprite) : Sprite :=
  {| data := d; td := td s; pic := pic s |}.

(** The six vertices of the quad, as [NewSprite] writes them. *)
Definition quad : TrianglesData :=
  let zero := Float.const64 0 in
  let one := Float.const64 1 in
  let white := {| R := one; G := one; B := one; A := one |} in
  [ {| Position := V zero zero; Color := white; Texture := V zero zero |};
    {| Position := V zero zero; Color := white; Texture := V one zero |};
    {| Position := V zero zero; Color := white; Texture := V one one |};
    {| Position := V zero zero; Color := white; Texture := V zero zero |};
    {| Position := V zero zero; Color := white; Texture := V one one |};
    {| Position := V zero zero; Color := white; Texture := V zero one |} ].

(** The six assignments of [SetPicture]. *)
Definition setCorners (w h : Float.float64) (d : TrianglesData) : outcome TrianglesData :=
  let zero := Float.const64 0 in
  andThen (storePosition 0 (V zero zero) d) id (fun d =>
  andThen (storePosition 1 (V w zero) d) id (fun d =>
  andThen (storePosition 2 (V w h) d) id (fun d =>
  andThen (storePosition 3 (V zero zero) d) id (fun d =>
  andThen (storePosition 4 (V w h) d) id (fun d =>
  storePosition 5 (V zero h) d))))).

Definition SetPicture (s : Sprite) (newPic : Picture) : outcome Sprite :=
  let oldPic := pic s in
  let s1 := {| data := data s; td := td s; pic := Some newPic |} in
  match oldPic with
  | Some old =>
      if Vec_eqb (Bounds_Size old) (Bounds_Size newPic) then Done s1
      else
        let (w, h) := XY (Bounds_Size newPic) in
        andThen (setCorners w h (data s1)) (fun d => withData d s1) (fun d =>
          Done {| data := d; td := TrianglesDrawer_Dirty (td s1); pic := pic s1 |})
  | None =>
      let (w, h) := XY (Bounds_Size newPic) in
      andThen (setCorners w h (data s1)) (fun d => withData d s1) (fun d =>
        Done {| data := d; td := TrianglesDrawer_Dirty (td s1); pic := pic s1 |})
  end.

Definition NewSprite (newPic : Picture) : outcome Sprite :=
  SetPicture {| data := quad; td := {| tris := ∅; dirty := false |}; pic := None |} newPic.

Definition Picture (s : Sprite) : option Picture := pic s.

(** [Draw] binds the picture on the target and draws through the cache. *)
Definition Draw (s : Sprite) (t : Target) : outcome Sprite :=
  andThen (TrianglesDrawer_Draw (IsTrianglesData (data s)) (td s) t)
          (fun d => {| data := data s; td := d; pic := pic s |})
          (fun d => Done {| data := data s; td := d; pic := pic s |}).

(** The sprites that a program can hold. *)
Inductive reachable : Sprite -> Prop :=
| reachable_new newPic s :
    NewSprite newPic = Done s -> reachable s
| reachable_SetPicture newPic s s1 :
    reachable s -> SetPicture s newPic = Done s1 -> reachable s1
| reachable_Draw t s s1 :
    reachable s -> Draw s t = Done s1 -> reachable s1.

End Sprite.

(** ** Transform *)

(** The package [mgl32] (github.com/go-gl/mathgl) is not part of the
    repository.  Its 3x3 matrices are arrays of nine [float32] in column-major
    order; the functions below are the ones [Mat] and [Project] call. *)
Module mgl32.

Record Mat3 := mat3 {
  m0 : Float.float32; m1 : Float.float32; m2 : Float.float32;
  m3 : Float.float32; m4 : Float.float32; m5 : Float.float32;
  m6 : Float.float32; m7 : Float.float32; m8 : Float.float32
}.

Record Vec3 := vec3 { v0 : Float.float32; v1 : Float.float32; v2 : Float.float32 }.

Definition zero : Float.float32 := Float.const32 0.
Definition one : Float.float32 := Float.const32 1.

Definition Ident3 : Mat3 := mat3 one zero zero zero one zero zero zero one.

Definition Translate2D (Tx Ty : Float.float32) : Mat3 :=
  mat3 one zero zero zero one zero Tx Ty one.

Definition Scale2D (scaleX scaleY : Float.float32) : Mat3 :=
  mat3 scaleX zero zero zero scaleY zero zero zero one.

(** [a*b + c*d + e*f], evaluated from left to right. *)
Definition dot3 (a b c d e f : Float.float32) : Float.float32 :=
  Float.add32 (Float.add32 (Float.mul32 a b) (Float.mul32 c d)) (Float.mul32 e f).

Definition Mul3 (a b : Mat3) : Mat3 :=
  mat3
    (dot3 (m0 a) (m0 b) (m3 a) (m1 b) (m6 a) (m2 b))
    (dot3 (m1 a) (m0 b) (m4 a) (m1 b) (m7 a) (m2 b))
    (dot3 (m2 a) (m0 b) (m5 a) (m1 b) (m8 a) (m2 b))
    (dot3 (m0 a) (m3 b) (m3 a) (m4 b) (m6 a) (m5 b))
    (dot3 (m1 a) (m3 b) (m4 a) (m4 b) (m7 a) (m5 b))
    (dot3 (m2 a) (m3 b) (m5 a) (m4 b) (m8 a) (m5 b))
    (dot3 (m0 a) (m6 b) (m3 a) (m7 b) (m6 a) (m8 b))
    (dot3 (m1 a) (m6 b) (m4 a) (m7 b) (m7 a) (m8 b))
    (dot3 (m2 a) (m6 b) (m5 a) (m7 b) (m8 a) (m8 b)).

Definition Mul3x1 (a : Mat3) (b : Vec3) : Vec3 :=
  vec3
    (dot3 (m0 a) (v0 b) (m3 a) (v1 b) (m6 a) (v2 b))
    (dot3 (m1 a) (v0 b) (m4 a) (v1 b) (m7 a) (v2 b))
    (dot3 (m2 a) (v0 b) (m5 a) (v1 b) (m8 a) (v2 b)).

(** [math.Sin] and [math.Cos] of the standard library.  Their value at a
    finite argument other than zero comes from a polynomial approximation that
    this development does not contain: the functions are defined ([Some]) at
    the arguments whose result is fixed, and undefined ([None]) elsewhere. *)
Definition math_Sin (x : Float.float64) : option Float.float64 :=
  match x with
  | S754_zero _ => Some x
  | S754_nan => Some S754_nan
  | S754_infinity _ => Some S754_nan
  | S754_finite _ _ _ => None
  end.

Definition math_Cos (x : Float.float64) : option Float.float64 :=
  match x with
  | S754_zero _ => Some (Float.const64 1)
  | S754_nan => Some S754_nan
  | S754_infinity _ => Some S754_nan
  | S754_finite _ _ _ => None
  end.

(** [sin, cos := float32(math.Sin(float64(angle))), float32(math.Cos(float64(angle)))]
    and [Mat3{cos, sin, 0, -sin, cos, 0, 0, 0, 1}]. *)
Definition Rotate3DZ (angle : Float.float32) : option Mat3 :=
  match math_Sin (Float.to64 angle), math_Cos (Float.to64 angle) with
  | Some s, Some c =>
      let sin := Float.to32 s in
      let cos := Float.to32 c in
      Some (mat3 cos sin zero (Float.neg32 sin) cos zero zero zero one)
  | _, _ => None
  end.

End mgl32.

Record Transform := { pos : Vec; anc : Vec; sca : Vec; rot : Float.float64 }.

Definition Transform_Anchor (t : Transform) (anchor : Vec) : Transform :=
  {| pos := pos t; anc := anchor; sca := sca t; rot := rot t |}.

Definition Transform_Scale (t : Transform) (scale : Float.float64) : Transform :=
  {| pos := pos t; anc := anc t; sca := V scale scale; rot := rot t |}.

Definition Transform_ScaleXY (t : Transform) (scale : Vec) : Transform :=
  {| pos := pos t; anc := anc t; sca := scale; rot := rot t |}.

Definition Transform_MulScaleXY (t : Transform) (factor : Vec) : Transform :=
  {| pos := pos t; anc := anc t;
     sca := V (Float.mul64 (X (sca t)) (X factor)) (Float.mul64 (Y (sca t)) (Y factor));
     rot := rot t |}.

(** [Transform{}]: every field has its zero value. *)
Definition zeroTransform : Transform :=
  {| pos := complex (S754_zero false) (S754_zero false);
     anc := complex (S754_zero false) (S754_zero false);
     sca := complex (S754_zero false) (S754_zero false);
     rot := S754_zero false |}.

Definition ZT : Transform := Transform_Scale zeroTransform (Float.const64 1).

Definition Anchor (anchor : Vec) : Transform := Transform_Anchor ZT anchor.

(** [Mat] is defined where the rotation matrix is. *)
Definition Transform_Mat (t : Transform) : option mgl32.Mat3 :=
  let mat := mgl32.Ident3 in
  let mat := mgl32.Mul3 mat (mgl32.Translate2D (Float.to32 (X (pos t))) (Float.to32 (Y (pos t)))) in
  match mgl32.Rotate3DZ (Float.to32 (rot t)) with
  | None => None
  | Some r =>
      let mat := mgl32.Mul3 mat r in
      let mat := mgl32.Mul3 mat (mgl32.Scale2D (Float.to32 (X (sca t))) (Float.to32 (Y (sca t)))) in
      let mat := mgl32.Mul3 mat
        (mgl32.Translate2D (Float.to32 (Float.neg64 (X (anc t))))
                           (Float.to32 (Float.neg64 (Y (anc t))))) in
      Some mat
  end.

Definition Transform_Project (t : Transform) (v : Vec) : option Vec :=
  match Transform_Mat t with
  | None => None
  | Some mat =>
      let vec := mgl32.vec3 (Float.to32 (X v)) (Float.to32 (Y v)) mgl32.one in
      let pro := mgl32.Mul3x1 mat vec in
      Some (V (Float.to64 (mgl32.v0 pro)) (Float.to64 (mgl32.v1 pro)))
  end.

Definition Camera (center zoom screenSize : Vec) : Transform :=
  Transform_MulScaleXY
    (Transform_ScaleXY (Anchor center) (Vec_mul (Vec_const 2) zoom))
    (V (Float.div64 (Float.const64 1) (X screenSize))
       (Float.div64 (Float.const64 1) (Y screenSize))).

(** *** The other setters, the getters and the inverse *)

(** [+] on vectors: Go's complex addition. *)
Definition Vec_add (u v : Vec) : Vec :=
  complex (Float.add64 (real u) (real v)) (Float.add64 (imag u) (imag v)).

Definition Transform_Position (t : Transform) (position : Vec) : Transform :=
  {| pos := position; anc := anc t; sca := sca t; rot := rot t |}.

Definition Transform_AddPosition (t : Transform) (delta : Vec) : Transform :=
  {| pos := Vec_add (pos t) delta; anc := anc t; sca := sca t; rot := rot t |}.

Definition Transform_AddAnchor (t : Transform) (delta : Vec) : Transform :=
  {| pos := pos t; anc := Vec_add (anc t) delta; sca := sca t; rot := rot t |}.

Definition Transform_Rotation (t : Transform) (angle : Float.float64) : Transform :=
  {| pos := pos t; anc := anc t; sca := sca t; rot := angle |}.

Definition Transform_AddRotation (t : Transform) (delta : Float.float64) : Transform :=
  {| pos := pos t; anc := anc t; sca := sca t; rot := Float.add64 (rot t) delta |}.

Definition Transform_GetPosition (t : Transform) : Vec := pos t.
Definition Transform_GetAnchor (t : Transform) : Vec := anc t.
Definition Transform_GetScaleXY (t : Transform) : Vec := sca t.
Definition Transform_GetRotation (t : Transform) : Float.float64 := rot t.

(** The functions of the package that start from [ZT]; [Anchor] is above. *)
Module FromZT.
Definition Position (position : Vec) : Transform := Transform_Position ZT position.
Definition Scale (scale : Float.float64) : Transform := Transform_Scale ZT scale.
Definition ScaleXY (scale : Vec) : Transform := Transform_ScaleXY ZT scale.
Definition Rotation (angle : Float.float64) : Transform := Transform_Rotation ZT angle.
End FromZT.

Definition Transform_InvMat (t : Transform) : option mgl32.Mat3 :=
  let mat := mgl32.Ident3 in
  let mat := mgl32.Mul3 mat (mgl32.Translate2D (Float.to32 (X (anc t))) (Float.to32 (Y (anc t)))) in
  let mat := mgl32.Mul3 mat
    (mgl32.Scale2D (Float.to32 (Float.div64 (Float.const64 1) (X (sca t))))
                   (Float.to32 (Float.div64 (Float.const64 1) (Y (sca t))))) in
  match mgl32.Rotate3DZ (Float.to32 (Float.neg64 (rot t))) with
  | None => None
  | Some r =>
      let mat := mgl32.Mul3 mat r in
      let mat := mgl32.Mul3 mat
        (mgl32.Translate2D (Float.to32 (Float.neg64 (X (pos t))))
                           (Float.to32 (Float.neg64 (Y (pos t))))) in
      Some mat
  end.

Definition Transform_Unproject (t : Transform) (v : Vec) : option Vec :=
  match Transform_InvMat t with
  | None => None
  | Some mat =>
      let vec := mgl32.vec3 (Float.to32 (X v)) (Float.to32 (Y v)) mgl32.one in
      let unp := mgl32.Mul3x1 mat vec in
      Some (V (Float.to64 (mgl32.v0 unp)) (Float.to64 (mgl32.v1 unp)))
  end.

(** ** Predicates of the statements *)

(** A source that implements [TrianglesPosition] alone. *)
Definition positionOnly (s : Source) (position : Z -> Vec) : Prop :=
  src_Position s = Some position /\ src_Color s = None /\ src_Texture s = None.

(** The fan triangulation from point 0: triangle [k] is
    [(points[0], points[k+1], points[k+2])]. *)
Fixpoint fanFrom (p0 : Vec) (rest : list Vec) : list Vec :=
  match rest with
  | a :: rest1 =>
      match rest1 with
      | b :: _ => p0 :: a :: b :: fanFrom p0 rest1
      | [] => []
      end
  | [] => []
  end.

Definition fan (points : list Vec) : list Vec :=
  match points with
  | p0 :: rest => fanFrom p0 rest
  | [] => []
  end.

(** Every vertex carries the colour of the polygon. *)
Definition uniformColor (p : Polygon) : Prop :=
  Forall (fun v => Color v = col p) (data p).

(** The buffer [d] is up to date with the source: it has the length of the
    source and is the result of an update from it. *)
Definition upToDate (src : Triangles) (d : TrianglesData) : Prop :=
  exists d0, TrianglesData_Len d0 = Triangles_Len src /\ d = updateData d0 src.

(** Two numbers that agree up to the sign of zero; Go's [==] does not tell
    them apart. *)
Definition feq (x y : spec_float) : Prop :=
  x = y \/ (Float.is_zero x = true /\ Float.is_zero y = true).

Definition Mat3_feq (a b : mgl32.Mat3) : Prop :=
  feq (mgl32.m0 a) (mgl32.m0 b) /\ feq (mgl32.m1 a) (mgl32.m1 b) /\ feq (mgl32.m2 a) (mgl32.m2 b)
  /\ feq (mgl32.m3 a) (mgl32.m3 b) /\ feq (mgl32.m4 a) (mgl32.m4 b) /\ feq (mgl32.m5 a) (mgl32.m5 b)
  /\ feq (mgl32.m6 a) (mgl32.m6 b) /\ feq (mgl32.m7 a) (mgl32.m7 b) /\ feq (mgl32.m8 a) (mgl32.m8 b).

(** The coordinates of [v] are finite when converted to [float32]. *)
Definition fits32 (v : Vec) : bool :=
  Float.finite32 (Float.to32 (X v)) && Float.finite32 (Float.to32 (Y v)).

(** [v] with each coordinate rounded to [float32]: [float64(float32(x))]. *)
Definition round32 (v : Vec) : Vec :=
  V (Float.to64 (Float.to32 (X v))) (Float.to64 (Float.to32 (Y v))).

(** The scale of [t] and the point [v] are finite at single precision, and
    so are their products: [Project] of [t] at [v] does not overflow. *)
Definition projectsFinitely (t : Transform) (v : Vec) : bool :=
  let sx := Float.to32 (X (sca t)) in
  let sy := Float.to32 (Y (sca t)) in
  let x := Float.to32 (X v) in
  let y := Float.to32 (Y v) in
  Float.finite32 sx && Float.finite32 sy && Float.finite32 x && Float.finite32 y
  && Float.finite32 (Float.mul32 sx x) && Float.finite32 (Float.mul32 sy y).

(** ** Values of the examples

    The colours of the examples are [NRGBA] values, which the conversion
    returns as they are. *)

Definition pt (x y : Z) : Vec := V (Float.const64 x) (Float.const64 y).
Definition white : NRGBA := Color defaultVertex.
Definition square : list Vec := [pt 0 0; pt 1 0; pt 1 1; pt 0 1].

Definition triangle : Polygon :=
  match NewPolygon NRGBA id white [pt 0 0; pt 1 0; pt 1 1] with
  | Done p => p
  | Panicked _ p => p
  end.

(** The [float64] nearest to 0.1. *)
Definition tenth : Float.float64 := Float.div64 (Float.const64 1) (Float.const64 10).

(** ** Definitions of the further properties *)

(** What the writes of the first loop of [SetPoints] leave alone. *)
Definition sameButPositions (d d1 : TrianglesData) : Prop :=
  length d1 = length d /\ Color <$> d1 = Color <$> d /\ Texture <$> d1 = Texture <$> d.

(** A clean drawer that holds the vertices of [triangle] for target 1. *)
Definition cleanDrawer : TrianglesDrawer :=
  {| tris := {[ 1%positive := {| tt_data := data triangle; tt_draws := 1 |} ]};
     dirty := false |}.

(** Two vectors that agree up to the sign of their zeros. *)
Definition Vec_feq (u v : Vec) : Prop := feq (real u) (real v) /\ feq (imag u) (imag v).

(** The positions of the quad of a picture of the given size. *)
Definition corners (size : Vec) : list Vec :=
  let zero := Float.const64 0 in
  let (w, h) := XY size in
  [V zero zero; V w zero; V w h; V zero zero; V w h; V zero h].

(** A sprite holds a picture, its buffer is the quad of [NewSprite] but for
    the positions, and the positions are, up to the sign of zero, the corners
    of the picture. *)
Definition sprite_wellFormed (s : Sprite.Sprite) : Prop :=
  exists p,
    Sprite.pic s = Some p
    /\ Texture <$> Sprite.data s = Texture <$> Sprite.quad
    /\ Color <$> Sprite.data s = Color <$> Sprite.quad
    /\ Forall2 Vec_feq (Position <$> Sprite.data s) (corners (Bounds_Size p)).

(** The matrix of the map [(x, y) -> (sx*x + tx, sy*y + ty)]. *)
Definition affine (sx sy tx ty : Float.float32) : mgl32.Mat3 :=
  mgl32.mat3 sx mgl32.zero mgl32.zero mgl32.zero sy mgl32.zero tx ty mgl32.one.

(** The float32 values that [Mat] and [Project] read of a transform and a
    point, and the value of [Project] where there is no rotation:
    [sca*v + (sca*(-anc) + pos)], each operation rounded to float32. *)
Definition scale32 (t : Transform) : Float.float32 * Float.float32 :=
  (Float.to32 (X (sca t)), Float.to32 (Y (sca t))).
Definition position32 (t : Transform) : Float.float32 * Float.float32 :=
  (Float.to32 (X (pos t)), Float.to32 (Y (pos t))).
Definition minusAnchor32 (t : Transform) : Float.float32 * Float.float32 :=
  (Float.to32 (Float.neg64 (X (anc t))), Float.to32 (Float.neg64 (Y (anc t)))).
Definition point32 (v : Vec) : Float.float32 * Float.float32 :=
  (Float.to32 (X v), Float.to32 (Y v)).

Definition finitePair (p : Float.float32 * Float.float32) : bool :=
  Float.finite32 (fst p) && Float.finite32 (snd p).

(** [s*a + t] on both coordinates. *)
Definition mulAdd32 (s a t : Float.float32 * Float.float32) : Float.float32 * Float.float32 :=
  (Float.add32 (Float.mul32 (fst s) (fst a)) (fst t),
   Float.add32 (Float.mul32 (snd s) (snd a)) (snd t)).

Definition toVec (p : Float.float32 * Float.float32) : Vec :=
  V (Float.to64 (fst p)) (Float.to64 (snd p)).

Definition translation32 (t : Transform) : Float.float32 * Float.float32 :=
  mulAdd32 (scale32 t) (minusAnchor32 t) (position32 t).

Definition projectWithoutRotation (t : Transform) (v : Vec) : Vec :=
  toVec (mulAdd32 (scale32 t) (point32 v) (translation32 t)).

Definition projectIsFinite (t : Transform) (v : Vec) : bool :=
  finitePair (scale32 t) && finitePair (position32 t) && finitePair (minusAnchor32 t)
  && finitePair (point32 v) && finitePair (translation32 t).

(** The same for [InvMat] and [Unproject]: [(1/sca)*v + ((1/sca)*(-pos) + anc)]. *)
Definition invScale32 (t : Transform) : Float.float32 * Float.float32 :=
  (Float.to32 (Float.div64 (Float.const64 1) (X (sca t))),
   Float.to32 (Float.div64 (Float.const64 1) (Y (sca t)))).
Definition anchor32 (t : Transform) : Float.float32 * Float.float32 :=
  (Float.to32 (X (anc t)), Float.to32 (Y (anc t))).
Definition minusPosition32 (t : Transform) : Float.float32 * Float.float32 :=
  (Float.to32 (Float.neg64 (X (pos t))), Float.to32 (Float.neg64 (Y (pos t)))).

Definition invTranslation32 (t : Transform) : Float.float32 * Float.float32 :=
  mulAdd32 (invScale32 t) (minusPosition32 t) (anchor32 t).

Definition unprojectWithoutRotation (t : Transform) (v : Vec) : Vec :=
  toVec (mulAdd32 (invScale32 t) (point32 v) (invTranslation32 t)).

Definition unprojectIsFinite (t : Transform) (v : Vec) : bool :=
  finitePair (invScale32 t) && finitePair (anchor32 t) && finitePair (minusPosition32 t)
  && finitePair (point32 v) && finitePair (invTranslation32 t).

Inductive field := FieldPosition | FieldAnchor | FieldScale | FieldRotation.

Inductive TransformOp :=
| OpPosition (v : Vec)
| OpAddPosition (v : Vec)
| OpAnchor (v : Vec)
| OpAddAnchor (v : Vec)
| OpScale (s : Float.float64)
| OpScaleXY (v : Vec)
| OpMulScaleXY (v : Vec)
| OpRotation (angle : Float.float64)
| OpAddRotation (delta : Float.float64).

Definition fieldOf (op : TransformOp) : field :=
  match op with
  | OpPosition _ | OpAddPosition _ => FieldPosition
  | OpAnchor _ | OpAddAnchor _ => FieldAnchor
  | OpScale _ | OpScaleXY _ | OpMulScaleXY _ => FieldScale
  | OpRotation _ | OpAddRotation _ => FieldRotation
  end.

Definition runOp (op : TransformOp) (t : Transform) : Transform :=
  match op with
  | OpPosition v => Transform_Position t v
  | OpAddPosition v => Transform_AddPosition t v
  | OpAnchor v => Transform_Anchor t v
  | OpAddAnchor v => Transform_AddAnchor t v
  | OpScale s => Transform_Scale t s
  | OpScaleXY v => Transform_ScaleXY t v
  | OpMulScaleXY v => Transform_MulScaleXY t v
  | OpRotation angle => Transform_Rotation t angle
  | OpAddRotation delta => Transform_AddRotation t delta
  end.

(** A slice value of Go: a window of [len] elements, at [offset] in a backing
    array that its copies and its sub-slices share, which may grow to [cap]
    elements.  The methods of [*TrianglesData] work on the elements of the
    window; [elements] reads them and [writeThrough] stores them. *)
Record slice := { offset : nat; len : nat; cap : nat }.

Definition elements (arr : list Vertex) (s : slice) : TrianglesData :=
  take (len s) (drop (offset s) arr).

Definition writeThrough (arr : list Vertex) (s : slice) (new : TrianglesData) : list Vertex :=
  take (offset s) arr ++ new ++ drop (offset s + len s) arr.

(** The window lies in the array. *)
Definition validSlice (arr : list Vertex) (s : slice) : Prop :=
  (len s <= cap s)%nat /\ (offset s + cap s <= length arr)%nat.

(** [Slice(i, j)]: the slice expression [( *td)[i:j]] panics, which is [None]
    here, unless [0 <= i <= j <= cap( *td)]. *)
Definition TrianglesData_Slice (td : slice) (i j : Z) : option slice :=
  if (0 <=? i) && (i <=? j) && (j <=? Z.of_nat (cap td))
  then Some {| offset := offset td + Z.to_nat i;
               len := Z.to_nat (j - i);
               cap := cap td - Z.to_nat i |}
  else None.

(** [Update] on a slice of a shared array. *)
Definition Slice_Update (arr : list Vertex) (s : slice) (t : Triangles) : outcome (list Vertex) :=
  andThen (TrianglesData_Update (elements arr s) t) (fun _ => arr)
          (fun new => Done (writeThrough arr s new)).

(** A sprite of a picture of 8 by 4, and pictures for it. *)
Definition picture8x4 : Picture := {| Bounds_Size := pt 8 4 |}.
Definition picture2x2 : Picture := {| Bounds_Size := pt 2 2 |}.
Definition sprite8x4 : Sprite.Sprite :=
  match Sprite.NewSprite picture8x4 with
  | Done s => s
  | Panicked _ s => s
  end.

(** An array of four vertices and the slice that is all of it. *)
Definition fourVertices : list Vertex :=
  [withPosition (pt 0 0) defaultVertex; withPosition (pt 1 0) defaultVertex;
   withPosition (pt 1 1) defaultVertex; withPosition (pt 0 1) defaultVertex].
Definition wholeSlice : slice := {| offset := 0; len := 4; cap := 4 |}.

(** * Properties *)

(** ** Resizing *)

Lemma TrianglesData_Len_nonneg (td : TrianglesData) : 0 <= TrianglesData_Len td.
Proof. unfold TrianglesData_Len. lia. Qed.

Lemma appendDefaults_app (n : nat) (td : TrianglesData) :
  appendDefaults n td = td ++ replicate n defaultVertex.
Proof.
  revert td. induction n as [|n IH]; intros td; simpl.
  - by rewrite app_nil_r.
  - rewrite IH, <- app_assoc. reflexivity.
Qed.

(** What [SetLen] does when its argument is a length. *)
Lemma SetLen_nonneg (td : TrianglesData) (len : Z) :
  0 <= len ->
  TrianglesData_SetLen td len =
    Done (take (Z.to_nat len) (td ++ replicate (Z.to_nat len - length td) defaultVertex)).
Proof.
  intros Hlen. unfold TrianglesData_SetLen, sliceTo, TrianglesData_Len.
  destruct (Z.gtb_spec len (Z.of_nat (length td))) as [Hgt|Hle].
  - rewrite appendDefaults_app.
    replace (Z.to_nat (len - Z.of_nat (length td))) with (Z.to_nat len - length td)%nat by lia.
    rewrite length_app, length_replicate.
    destruct (Z.ltb_spec len (Z.of_nat (length td + (Z.to_nat len - length td)))); [lia|].
    rewrite take_ge; [reflexivity|].
    rewrite length_app, length_replicate. lia.
  - replace (Z.to_nat len - length td)%nat with O by lia. simpl. rewrite app_nil_r.
    destruct (Z.ltb_spec len (Z.of_nat (length td))) as [Hlt|Hge].
    + destruct (Z.ltb_spec len 0); [lia|].
      destruct (Z.ltb_spec (Z.of_nat (length td)) len); [lia|]. reflexivity.
    + rewrite take_ge; [reflexivity|lia].
Qed.

Lemma SetLen_negative (td : TrianglesData) (len : Z) :
  len < 0 -> TrianglesData_SetLen td len = Panicked SliceBoundsOutOfRange td.
Proof.
  intros Hlen. unfold TrianglesData_SetLen, sliceTo.
  pose proof (TrianglesData_Len_nonneg td) as Hnn.
  destruct (Z.gtb_spec len (TrianglesData_Len td)); [lia|].
  destruct (Z.ltb_spec len (TrianglesData_Len td)); [|lia].
  destruct (Z.ltb_spec len 0); [reflexivity|lia].
Qed.

Lemma SetLen_Done_Len (td td1 : TrianglesData) (len : Z) :
  TrianglesData_SetLen td len = Done td1 -> 0 <= len /\ TrianglesData_Len td1 = len.
Proof.
  intros H. destruct (Z.lt_ge_cases len 0) as [Hneg|Hnn].
  - rewrite SetLen_negative in H by assumption. discriminate.
  - rewrite SetLen_nonneg in H by assumption. injection H as <-.
    split; [assumption|]. unfold TrianglesData_Len.
    rewrite length_take, length_app, length_replicate. lia.
Qed.

(** C10: a negative length makes [SetLen], on any buffer, and
    [MakeTrianglesData] panic on the bound of the slice expression; a call
    that returns has produced a buffer of the requested, non-negative length;
    and [Len] is never negative. *)
Theorem SetLen_negative_is_fatal (td : TrianglesData) (len : Z) :
  (len < 0 ->
     TrianglesData_SetLen td len = Panicked SliceBoundsOutOfRange td
     /\ MakeTrianglesData len = Panicked SliceBoundsOutOfRange [])
  /\ (forall td1, TrianglesData_SetLen td len = Done td1 ->
        0 <= len /\ TrianglesData_Len td1 = len)
  /\ 0 <= TrianglesData_Len td.
Proof.
  split; [|split].
  - intros Hlen. split; [|unfold MakeTrianglesData]; by apply SetLen_negative.
  - intros td1. apply SetLen_Done_Len.
  - apply TrianglesData_Len_nonneg.
Qed.

Lemma SetLen_negative_is_fatal_witness :
  TrianglesData_SetLen [defaultVertex] (-3) = Panicked SliceBoundsOutOfRange [defaultVertex]
  /\ MakeTrianglesData (-3) = Panicked SliceBoundsOutOfRange [].
Proof. apply (SetLen_negative_is_fatal [defaultVertex] (-3)). lia. Defined.

(** ** Update *)

Lemma copy_same_length (dst src : TrianglesData) :
  length dst = length src -> copy dst src = src.
Proof.
  intros H. unfold copy.
  rewrite take_ge by lia. rewrite drop_ge by lia. apply app_nil_r.
Qed.

(** C4: [Update] panics with the invalid-length error exactly when the two
    lengths differ, and with equal lengths it returns. *)
Theorem Update_fails_iff_lengths_differ (td : TrianglesData) (t : Triangles) :
  ((exists s, TrianglesData_Update td t = Panicked InvalidLength s)
     <-> TrianglesData_Len td <> Triangles_Len t)
  /\ (TrianglesData_Len td = Triangles_Len t ->
        TrianglesData_Update td t = Done (updateData td t)).
Proof.
  unfold TrianglesData_Update.
  destruct (Z.eqb_spec (TrianglesData_Len td) (Triangles_Len t)) as [Heq|Hne]; simpl.
  - split; [split|].
    + intros [s Hs]. discriminate.
    + intros Hne. contradiction.
    + reflexivity.
  - split; [split|].
    + intros _. assumption.
    + intros _. exists td. reflexivity.
    + intros Heq. contradiction.
Qed.

Lemma Update_fails_iff_lengths_differ_witness :
  (exists s, TrianglesData_Update [defaultVertex] (IsTrianglesData []) = Panicked InvalidLength s)
  /\ TrianglesData_Update [defaultVertex] (IsTrianglesData [defaultVertex])
     = Done (updateData [defaultVertex] (IsTrianglesData [defaultVertex])).
Proof.
  split.
  - apply (Update_fails_iff_lengths_differ [defaultVertex] (IsTrianglesData [])).
    vm_compute. discriminate.
  - apply (Update_fails_iff_lengths_differ [defaultVertex] (IsTrianglesData [defaultVertex])).
    reflexivity.
Defined.

(** C9: an [Update] with a source of another length panics with the buffer
    exactly as it was before the call. *)
Theorem Update_failure_leaves_buffer (td : TrianglesData) (t : Triangles) :
  TrianglesData_Len td <> Triangles_Len t ->
  TrianglesData_Update td t = Panicked InvalidLength td.
Proof.
  intros Hne. unfold TrianglesData_Update.
  destruct (Z.eqb_spec (TrianglesData_Len td) (Triangles_Len t)); [contradiction|reflexivity].
Qed.

Lemma Update_failure_leaves_buffer_witness :
  TrianglesData_Update [defaultVertex; defaultVertex] (IsTrianglesData [defaultVertex])
  = Panicked InvalidLength [defaultVertex; defaultVertex].
Proof.
  apply (Update_failure_leaves_buffer [defaultVertex; defaultVertex]
           (IsTrianglesData [defaultVertex])).
  vm_compute. discriminate.
Defined.

(** C5: from a source of the same length that has positions but neither
    colours nor texture coordinates, [Update] returns a buffer of the same
    length in which vertex [i] has the position [i] of the source and the
    colour and texture it had. *)
Theorem Update_position_only (td : TrianglesData) (s : Source) (position : Z -> Vec) :
  positionOnly s position ->
  src_Len s = TrianglesData_Len td ->
  exists td1,
    TrianglesData_Update td (OtherTriangles s) = Done td1
    /\ length td1 = length td
    /\ forall (i : nat) (v : Vertex), td !! i = Some v ->
         td1 !! i = Some {| Position := position (Z.of_nat i);
                            Color := Color v; Texture := Texture v |}.
Proof.
  intros (Hp & Hc & Ht) Hlen.
  exists (imap (fun i v => withPosition (position (Z.of_nat i)) v) td).
  split; [|split].
  - unfold TrianglesData_Update. simpl. rewrite Hlen, Z.eqb_refl. simpl.
    rewrite Hp, Hc, Ht. reflexivity.
  - apply length_imap.
  - intros i v Hi. rewrite list_lookup_imap, Hi. reflexivity.
Qed.

Lemma Update_position_only_witness :
  exists td1,
    TrianglesData_Update [defaultVertex]
      (OtherTriangles {| src_Len := 1; src_Position := Some (fun i => V (Float.const64 i) (Float.const64 7));
                         src_Color := None; src_Texture := None |}) = Done td1
    /\ length td1 = length [defaultVertex]
    /\ forall (i : nat) (v : Vertex), [defaultVertex] !! i = Some v ->
         td1 !! i = Some {| Position := V (Float.const64 (Z.of_nat i)) (Float.const64 7);
                            Color := Color v; Texture := Texture v |}.
Proof.
  apply (Update_position_only [defaultVertex]
           {| src_Len := 1; src_Position := Some (fun i => V (Float.const64 i) (Float.const64 7));
              src_Color := None; src_Texture := None |}
           (fun i => V (Float.const64 i) (Float.const64 7))).
  - repeat split.
  - reflexivity.
Defined.

(** ** Polygon *)

Lemma fanFrom_length (p0 a : Vec) (tl : list Vec) :
  length (fanFrom p0 (a :: tl)) = (3 * length tl)%nat.
Proof.
  revert a. induction tl as [|b tl IH]; intros a; [reflexivity|].
  change (fanFrom p0 (a :: b :: tl)) with (p0 :: a :: b :: fanFrom p0 (b :: tl)).
  cbn [length]. rewrite IH. lia.
Qed.

Lemma fan_length (points : list Vec) :
  (2 <= length points)%nat -> length (fan points) = (3 * (length points - 2))%nat.
Proof.
  destruct points as [|p0 [|a tl]]; cbn [length]; try lia.
  intros _. unfold fan. rewrite fanFrom_length. lia.
Qed.

Lemma assignPosition_at (points : list Vec) (j i : Z) (v : Vec)
    (done : TrianglesData) (x : Vertex) (todo : TrianglesData) :
  0 <= j -> points !! Z.to_nat j = Some v -> i = Z.of_nat (length done) ->
  assignPosition points j i (done ++ x :: todo) = Done (done ++ withPosition v x :: todo).
Proof.
  intros Hj Hv ->. unfold assignPosition.
  destruct (Z.ltb_spec j 0); [lia|].
  destruct (Z.ltb_spec (Z.of_nat (length done)) 0); [lia|]. simpl.
  rewrite Hv, Nat2Z.id.
  rewrite lookup_app_r by lia. rewrite Nat.sub_diag. simpl.
  replace (length done) with (length done + 0)%nat at 1 by lia.
  rewrite alter_app_r. reflexivity.
Qed.

(** The first loop of [SetPoints], started at triangle [k] with the triangles
    before it written: it returns, and writes the rest of the fan. *)
Lemma fanLoop_from (p0 : Vec) (tl pre : list Vec) (a : Vec) (done todo : TrianglesData) :
  length done = (3 * length pre)%nat ->
  length todo = (3 * length tl)%nat ->
  exists todo1,
    forLoop (fanBody (p0 :: pre ++ a :: tl)) (Z.of_nat (length pre) + 2) (length tl)
            (done ++ todo) = Done (done ++ todo1)
    /\ map Position todo1 = fanFrom p0 (a :: tl)
    /\ length todo1 = length todo.
Proof.
  revert pre a done todo. induction tl as [|b tl IH]; intros pre a done todo Hdone Htodo.
  - destruct todo; [|discriminate]. exists []. simpl. auto.
  - destruct todo as [|x [|y [|z todo]]]; simpl in Htodo; try lia.
    set (points := p0 :: pre ++ a :: b :: tl).
    assert (H0 : points !! Z.to_nat 0 = Some p0) by reflexivity.
    assert (H1 : points !! Z.to_nat (Z.of_nat (length pre) + 2 - 1) = Some a).
    { replace (Z.to_nat (Z.of_nat (length pre) + 2 - 1)) with (S (length pre + 0)) by lia.
      unfold points. simpl. rewrite lookup_app_r by lia.
      replace (length pre + 0 - length pre)%nat with O by lia. reflexivity. }
    assert (H2 : points !! Z.to_nat (Z.of_nat (length pre) + 2) = Some b).
    { replace (Z.to_nat (Z.of_nat (length pre) + 2)) with (S (length pre + 1)) by lia.
      unfold points. simpl. rewrite lookup_app_r by lia.
      replace (length pre + 1 - length pre)%nat with 1%nat by lia. reflexivity. }
    simpl length. cbn [forLoop]. unfold fanBody.
    rewrite (assignPosition_at points 0 _ p0 done x (y :: z :: todo)); [|lia|exact H0|lia].
    cbn [andThen].
    replace (done ++ withPosition p0 x :: y :: z :: todo)
      with ((done ++ [withPosition p0 x]) ++ y :: z :: todo) by (rewrite <- app_assoc; reflexivity).
    rewrite (assignPosition_at points _ _ a (done ++ [withPosition p0 x]) y (z :: todo));
      [|lia|exact H1|rewrite length_app; simpl; lia].
    cbn [andThen].
    replace ((done ++ [withPosition p0 x]) ++ withPosition a y :: z :: todo)
      with ((done ++ [withPosition p0 x; withPosition a y]) ++ z :: todo)
      by (rewrite <- !app_assoc; reflexivity).
    rewrite (assignPosition_at points _ _ b (done ++ [withPosition p0 x; withPosition a y]) z todo);
      [|lia|exact H2|rewrite length_app; simpl; lia].
    cbn [andThen id].
    replace ((done ++ [withPosition p0 x; withPosition a y]) ++ withPosition b z :: todo)
      with ((done ++ [withPosition p0 x; withPosition a y; withPosition b z]) ++ todo)
      by (rewrite <- !app_assoc; reflexivity).
    destruct (IH (pre ++ [a]) b (done ++ [withPosition p0 x; withPosition a y; withPosition b z]) todo)
      as (todo1 & Hloop & Hpos & Hlen).
    { rewrite !length_app. simpl. lia. }
    { lia. }
    exists (withPosition p0 x :: withPosition a y :: withPosition b z :: todo1).
    split; [|split].
    + unfold points.
      replace (Z.of_nat (length pre) + 2 + 1) with (Z.of_nat (length (pre ++ [a])) + 2)
        by (rewrite length_app; simpl; lia).
      replace (p0 :: pre ++ a :: b :: tl) with (p0 :: (pre ++ [a]) ++ b :: tl)
        by (rewrite <- app_assoc; reflexivity).
      etrans; [exact Hloop|]. rewrite <- !app_assoc. reflexivity.
    + change (fanFrom p0 (a :: b :: tl)) with (p0 :: a :: b :: fanFrom p0 (b :: tl)).
      simpl. rewrite Hpos. reflexivity.
    + simpl. lia.
Qed.

Lemma map_Position_withColor (c : NRGBA) (d : TrianglesData) :
  map Position (map (withColor c) d) = map Position d.
Proof. rewrite map_map. reflexivity. Qed.

Lemma Forall_withColor (c : NRGBA) (d : TrianglesData) :
  Forall (fun v => Color v = c) (map (withColor c) d).
Proof. apply Forall_map. apply Forall_forall. intros v _. reflexivity. Qed.

Lemma withPolygonData_same (p : Polygon) : withPolygonData (data p) p = p.
Proof. destruct p. reflexivity. Qed.

(** [SetPoints] with at least two points returns: the positions of the buffer
    are the fan of the points, and every vertex has the polygon's colour. *)
Lemma SetPoints_fan (points : list Vec) (p : Polygon) :
  (2 <= length points)%nat ->
  exists p1,
    Polygon_SetPoints points p = Done p1
    /\ Polygon_Points p1 = fan points
    /\ col p1 = col p
    /\ uniformColor p1.
Proof.
  intros Hn. destruct points as [|p0 [|a tl]]; simpl in Hn; try lia.
  unfold Polygon_SetPoints.
  set (n := Z.of_nat (length (p0 :: a :: tl))).
  assert (Hlen : 3 * (n - 2) = Z.of_nat (3 * length tl)) by (unfold n; simpl length; lia).
  rewrite SetLen_nonneg by lia. cbn [andThen].
  set (d1 := take _ _).
  assert (Hd1 : length d1 = (3 * length tl)%nat).
  { unfold d1. rewrite length_take, length_app, length_replicate. lia. }
  destruct (fanLoop_from p0 tl [] a [] d1 eq_refl Hd1) as (d2 & Hloop & Hpos & Hlen2).
  replace (Z.to_nat (n - 2)) with (length tl) by (unfold n; simpl length; lia).
  change (forLoop (fanBody (p0 :: a :: tl)) 2 (length tl) d1 = Done d2) in Hloop.
  rewrite Hloop. cbn [andThen].
  eexists. split; [reflexivity|].
  unfold Polygon_Points, uniformColor. simpl.
  rewrite map_Position_withColor. split; [exact Hpos|].
  split; [reflexivity|]. apply Forall_withColor.
Qed.

(** A call of [SetPoints] that returns leaves the colour of the polygon as
    it was and gives it to every vertex. *)
Lemma SetPoints_Done_uniform (points : list Vec) (p p1 : Polygon) :
  Polygon_SetPoints points p = Done p1 -> col p1 = col p /\ uniformColor p1.
Proof.
  unfold Polygon_SetPoints. intros H.
  destruct (TrianglesData_SetLen _ _) as [d1|e d1]; cbn [andThen] in H; [|discriminate].
  destruct (forLoop _ _ _ _) as [d2|e d2]; cbn [andThen] in H; [|discriminate].
  injection H as <-. split; [reflexivity|]. apply Forall_withColor.
Qed.

(** [SetPoints] with fewer than two points asks [SetLen] for a negative
    length: it panics, and the polygon is as it was. *)
Lemma SetPoints_too_few (points : list Vec) (p : Polygon) :
  (length points < 2)%nat ->
  Polygon_SetPoints points p = Panicked SliceBoundsOutOfRange p.
Proof.
  intros Hn. unfold Polygon_SetPoints.
  rewrite SetLen_negative by lia. cbn [andThen].
  rewrite withPolygonData_same. reflexivity.
Qed.

(** A call of [SetPoints] that panics leaves the polygon as it was. *)
Lemma SetPoints_Panicked_unchanged (points : list Vec) (p p1 : Polygon) (e : panic) :
  Polygon_SetPoints points p = Panicked e p1 -> p1 = p.
Proof.
  intros H. destruct (Nat.lt_ge_cases (length points) 2) as [Hlt|Hge].
  - rewrite SetPoints_too_few in H by exact Hlt. injection H as _ <-. reflexivity.
  - destruct (SetPoints_fan points p Hge) as (p2 & Hp2 & _). rewrite Hp2 in H. discriminate.
Qed.

(** [Draw] changes neither the vertices nor the colour of the polygon. *)
Lemma Draw_keeps_vertices (p : Polygon) (t : Target) :
  match Polygon_Draw p t with
  | Done p1 | Panicked _ p1 => data p1 = data p /\ col p1 = col p
  end.
Proof.
  unfold Polygon_Draw. destruct (TrianglesDrawer_Draw _ _ _); simpl; auto.
Qed.

Section PolygonFacts.

Variable color_Color : Type.
Variable NRGBAModel_Convert : color_Color -> NRGBA.

Lemma SetColor_uniform (c : color_Color) (p : Polygon) :
  uniformColor (Polygon_SetColor color_Color NRGBAModel_Convert c p).
Proof. unfold uniformColor, Polygon_SetColor. simpl. apply Forall_withColor. Qed.

(** C1: a polygon made of n >= 3 points is made, and [Points] returns the
    three corners of each of its n-2 triangles, [3*(n-2)] points, which is
    the sequence that was supplied only when n = 3. *)
Theorem Points_returns_the_fan (c : color_Color) (points : list Vec) :
  (3 <= length points)%nat ->
  exists p,
    NewPolygon color_Color NRGBAModel_Convert c points = Done p
    /\ Polygon_Points p = fan points
    /\ length (Polygon_Points p) = (3 * (length points - 2))%nat
    /\ ((4 <= length points)%nat -> Polygon_Points p <> points).
Proof.
  intros Hn. unfold NewPolygon.
  destruct (SetPoints_fan points (Polygon_SetColor color_Color NRGBAModel_Convert c emptyPolygon))
    as (p & Hp & Hfan & _); [lia|].
  exists p. split; [exact Hp|]. split; [exact Hfan|].
  assert (Hl : length (Polygon_Points p) = (3 * (length points - 2))%nat).
  { rewrite Hfan. apply fan_length. lia. }
  split; [exact Hl|].
  intros H4 Heq. rewrite Heq in Hl. lia.
Qed.

(** C8: every polygon that the public operations produce or leave behind
    has the colour returned by [Color] on every vertex of its buffer. *)
Theorem reachable_uniformColor (p : Polygon) :
  reachable color_Color NRGBAModel_Convert p ->
  Forall (fun v => Color v = Polygon_Color p) (data p).
Proof.
  intros Hr. change (uniformColor p).
  induction Hr as [c points p Hnew|op p p1 Hr IH Hop|op e p p1 Hr IH Hop].
  - unfold NewPolygon in Hnew. apply SetPoints_Done_uniform in Hnew. tauto.
  - destruct op as [c|points|t]; simpl in Hop.
    + injection Hop as <-. apply SetColor_uniform.
    + apply SetPoints_Done_uniform in Hop. tauto.
    + pose proof (Draw_keeps_vertices p t) as Hd. rewrite Hop in Hd.
      destruct Hd as [Hdata Hcol]. unfold uniformColor. rewrite Hdata, Hcol. exact IH.
  - destruct op as [c|points|t]; simpl in Hop.
    + discriminate.
    + apply SetPoints_Panicked_unchanged in Hop. subst p1. exact IH.
    + pose proof (Draw_keeps_vertices p t) as Hd. rewrite Hop in Hd.
      destruct Hd as [Hdata Hcol]. unfold uniformColor. rewrite Hdata, Hcol. exact IH.
Qed.

(** C3, as the code has it: with two points [SetPoints] returns and the
    buffer is empty; with fewer it panics on the bound of the slice
    expression of [SetLen], and the polygon is as it was. *)
Theorem SetPoints_degenerate (points : list Vec) (p : Polygon) :
  (length points = 2%nat ->
     exists p1, Polygon_SetPoints points p = Done p1 /\ data p1 = [] /\ col p1 = col p)
  /\ ((length points < 2)%nat ->
        Polygon_SetPoints points p = Panicked SliceBoundsOutOfRange p).
Proof.
  split.
  - intros Hn. destruct (SetPoints_fan points p) as (p1 & Hp & Hfan & Hcol & _); [lia|].
    exists p1. split; [exact Hp|]. split; [|exact Hcol].
    destruct points as [|p0 [|a [|b tl]]]; try discriminate.
    unfold Polygon_Points in Hfan. simpl in Hfan.
    destruct (data p1); [reflexivity|discriminate].
  - apply SetPoints_too_few.
Qed.

End PolygonFacts.

Lemma Points_returns_the_fan_witness :
  exists p,
    NewPolygon NRGBA id white square = Done p
    /\ Polygon_Points p = fan square
    /\ length (Polygon_Points p) = (3 * (length square - 2))%nat
    /\ ((4 <= length square)%nat -> Polygon_Points p <> square).
Proof. apply (Points_returns_the_fan NRGBA id white square). simpl. lia. Defined.

(** C1 at a square: [Points] returns six points for the four supplied. *)
Example Points_of_square :
  exists p,
    NewPolygon NRGBA id white square = Done p
    /\ Polygon_Points p = [pt 0 0; pt 1 0; pt 1 1; pt 0 0; pt 1 1; pt 0 1]
    /\ Polygon_Points p <> square.
Proof. eexists. split; [vm_compute; reflexivity|]. split; [reflexivity|discriminate]. Qed.

(** C3 fails where a single point is supplied: the call does not return. *)
Lemma SetPoints_one_point_panics :
  ~ (exists p1, Polygon_SetPoints [pt 1 1] (Polygon_SetColor NRGBA id white emptyPolygon) = Done p1
                /\ data p1 = []).
Proof. intros (p1 & H & _). vm_compute in H. discriminate. Qed.

Lemma SetPoints_degenerate_witness :
  (exists p1, Polygon_SetPoints [pt 0 0; pt 1 0] triangle = Done p1
              /\ data p1 = [] /\ col p1 = col triangle)
  /\ Polygon_SetPoints [pt 0 0] triangle = Panicked SliceBoundsOutOfRange triangle.
Proof.
  split.
  - apply (SetPoints_degenerate [pt 0 0; pt 1 0] triangle). reflexivity.
  - apply (SetPoints_degenerate [pt 0 0] triangle). simpl. lia.
Defined.

Lemma reachable_uniformColor_witness :
  Forall (fun v => Color v = Polygon_Color triangle) (data triangle).
Proof.
  apply (reachable_uniformColor NRGBA id triangle).
  apply (reachable_new NRGBA id white [pt 0 0; pt 1 0; pt 1 1]).
  vm_compute. reflexivity.
Defined.

(** ** The draw cache *)

Lemma updateData_length (d : TrianglesData) (src : Triangles) :
  length (updateData d src) = length d.
Proof.
  destruct src as [v|s]; simpl.
  - unfold copy. rewrite length_app, length_take, length_drop. lia.
  - destruct (src_Position s), (src_Color s), (src_Texture s);
      rewrite ?length_imap; reflexivity.
Qed.

Lemma upToDate_length (src : Triangles) (d : TrianglesData) :
  upToDate src d -> TrianglesData_Len d = Triangles_Len src.
Proof.
  intros (d0 & Hlen & ->). unfold TrianglesData_Len in *.
  rewrite updateData_length. exact Hlen.
Qed.

Lemma upToDate_TrianglesData (v d : TrianglesData) :
  upToDate (IsTrianglesData v) d -> d = v.
Proof.
  intros (d0 & Hlen & ->). simpl. apply copy_same_length.
  unfold TrianglesData_Len in Hlen. simpl in Hlen. unfold TrianglesData_Len in Hlen. lia.
Qed.

(** Resizing a buffer to the length of the source and updating it from the
    source returns, and the result is up to date. *)
Lemma SetLen_then_Update (d : TrianglesData) (src : Triangles) :
  0 <= Triangles_Len src ->
  exists d1,
    andThen (TrianglesData_SetLen d (Triangles_Len src)) id
            (fun d0 => TrianglesData_Update d0 src) = Done d1
    /\ upToDate src d1.
Proof.
  intros Hlen. rewrite SetLen_nonneg by exact Hlen. cbn [andThen].
  set (d0 := take _ _).
  assert (Hd0 : TrianglesData_Len d0 = Triangles_Len src).
  { unfold d0, TrianglesData_Len. rewrite length_take, length_app, length_replicate. lia. }
  exists (updateData d0 src). split.
  - unfold TrianglesData_Update. rewrite Hd0, Z.eqb_refl. reflexivity.
  - exists d0. split; [exact Hd0|reflexivity].
Qed.

(** One round of the loop of [flush]: the resource is resized and updated. *)
Lemma flushBody_returns (src : Triangles) (t : TargetTriangles) :
  0 <= Triangles_Len src ->
  exists t1, flushBody src t = Done t1 /\ upToDate src (tt_data t1).
Proof.
  intros Hlen. unfold flushBody, TargetTriangles_SetLen, TargetTriangles_Update.
  destruct (SetLen_then_Update (tt_data t) src Hlen) as (d1 & Hd1 & Hup).
  destruct (TrianglesData_SetLen (tt_data t) (Triangles_Len src)) as [d0|e d0];
    cbn [andThen] in *; [|discriminate].
  simpl. rewrite Hd1. cbn [andThen]. eexists. split; [reflexivity|exact Hup].
Qed.

Lemma flushLoop_returns (src : Triangles) (entries : list (Target * TargetTriangles))
    (m : gmap Target TargetTriangles) :
  0 <= Triangles_Len src ->
  NoDup entries.*1 ->
  exists m1,
    flushLoop src entries m = Done m1
    /\ forall k,
         match (list_to_map entries : gmap Target TargetTriangles) !! k with
         | Some _ => exists r, m1 !! k = Some r /\ upToDate src (tt_data r)
         | None => m1 !! k = m !! k
         end.
Proof.
  intros Hlen. revert m. induction entries as [|[k t] rest IH]; intros m Hnd.
  - exists m. split; [reflexivity|]. intros k. rewrite list_to_map_nil, lookup_empty. reflexivity.
  - rewrite fmap_cons in Hnd. apply NoDup_cons in Hnd as [Hk Hnd].
    cbn [flushLoop]. destruct (flushBody_returns src t Hlen) as (t1 & Ht1 & Hup).
    rewrite Ht1. destruct (IH (<[k := t1]> m) Hnd) as (m1 & Hm1 & Hlook).
    exists m1. split; [exact Hm1|].
    intros j. specialize (Hlook j). rewrite list_to_map_cons. simpl.
    destruct (decide (k = j)) as [->|Hne].
    + rewrite (not_elem_of_list_to_map_1 rest j Hk) in Hlook.
      rewrite lookup_insert_eq in Hlook. rewrite lookup_insert_eq. eauto.
    + rewrite (lookup_insert_ne _ k j) in Hlook by exact Hne.
      rewrite (lookup_insert_ne _ k j) by exact Hne. exact Hlook.
Qed.

(** [flush] of a dirty drawer returns a clean drawer with the same targets,
    and every resource of the cache is up to date. *)
Lemma flush_dirty (src : Triangles) (td : TrianglesDrawer) :
  0 <= Triangles_Len src ->
  dirty td = true ->
  exists td1,
    TrianglesDrawer_flush src td = Done td1
    /\ dirty td1 = false
    /\ forall k,
         match tris td !! k with
         | Some _ => exists r, tris td1 !! k = Some r /\ upToDate src (tt_data r)
         | None => tris td1 !! k = None
         end.
Proof.
  intros Hlen Hd. unfold TrianglesDrawer_flush. rewrite Hd. simpl negb. cbv iota.
  destruct (flushLoop_returns src (map_to_list (tris td)) (tris td) Hlen)
    as (m1 & Hm1 & Hlook); [apply NoDup_fst_map_to_list|].
  rewrite Hm1. cbn [andThen]. eexists. split; [reflexivity|]. split; [reflexivity|].
  intros k. specialize (Hlook k). rewrite list_to_map_to_list in Hlook. simpl.
  destruct (tris td !! k); exact Hlook.
Qed.

Lemma MakeTriangles_returns (target : Target) (src : Triangles) :
  0 <= Triangles_Len src ->
  exists r, Target_MakeTriangles target src = Done r /\ upToDate src (tt_data r).
Proof.
  intros Hlen. unfold Target_MakeTriangles, MakeTrianglesData, TargetTriangles_Update.
  destruct (SetLen_then_Update [] src Hlen) as (d1 & Hd1 & Hup).
  destruct (TrianglesData_SetLen [] (Triangles_Len src)) as [d0|e d0];
    cbn [andThen] in *; [|discriminate].
  simpl. rewrite Hd1. cbn [andThen]. eexists. split; [reflexivity|exact Hup].
Qed.

(** The end of [Draw], after [flush]: the resource of the target is looked
    up, or made, and drawn; the other resources stay as they are. *)
Lemma Draw_after_flush (src : Triangles) (td1 : TrianglesDrawer) (target : Target) :
  0 <= Triangles_Len src ->
  exists td2 r,
    match tris td1 !! target with
    | Some tri =>
        Done {| tris := <[target := TargetTriangles_Draw tri]> (tris td1); dirty := dirty td1 |}
    | None =>
        andThen (Target_MakeTriangles target src) (fun _ => td1) (fun tri =>
          Done {| tris := <[target := TargetTriangles_Draw tri]> (tris td1);
                  dirty := dirty td1 |})
    end = Done td2
    /\ tris td2 = <[target := TargetTriangles_Draw r]> (tris td1)
    /\ match tris td1 !! target with
       | Some tri => r = tri
       | None => upToDate src (tt_data r)
       end.
Proof.
  intros Hlen. destruct (tris td1 !! target) as [tri|].
  - eexists _, tri. split; [reflexivity|]. split; reflexivity.
  - destruct (MakeTriangles_returns target src Hlen) as (r & Hr & Hup).
    rewrite Hr. cbn [andThen]. eexists _, r. split; [reflexivity|]. split; [reflexivity|exact Hup].
Qed.

(** Drawing returns; the target has a resource afterwards and no resource
    is dropped. *)
Lemma Draw_returns (src : Triangles) (td : TrianglesDrawer) (target : Target) :
  0 <= Triangles_Len src ->
  exists td1,
    TrianglesDrawer_Draw src td target = Done td1
    /\ is_Some (tris td1 !! target)
    /\ forall k, is_Some (tris td !! k) -> is_Some (tris td1 !! k).
Proof.
  intros Hlen. unfold TrianglesDrawer_Draw.
  assert (Hflush : exists tdf, TrianglesDrawer_flush src td = Done tdf
                     /\ forall k, is_Some (tris td !! k) -> is_Some (tris tdf !! k)).
  { destruct (dirty td) eqn:Hd.
    - destruct (flush_dirty src td Hlen Hd) as (tdf & Hf & _ & Hlook).
      exists tdf. split; [exact Hf|]. intros k [t Hk]. specialize (Hlook k).
      rewrite Hk in Hlook. destruct Hlook as (r & Hr & _). eauto.
    - exists td. split; [|auto]. unfold TrianglesDrawer_flush. rewrite Hd. reflexivity. }
  destruct Hflush as (tdf & Hf & Hkeep). rewrite Hf. cbn [andThen].
  destruct (Draw_after_flush src tdf target Hlen) as (td2 & r & Hd2 & Htris & _).
  exists td2. split; [exact Hd2|]. rewrite Htris. split.
  - rewrite lookup_insert_eq. eauto.
  - intros k Hk. destruct (decide (target = k)) as [->|Hne].
    + rewrite lookup_insert_eq. eauto.
    + rewrite lookup_insert_ne by exact Hne. apply Hkeep, Hk.
Qed.

(** Drawing a dirty drawer returns, and afterwards every resource that was
    in the cache is up to date. *)
Lemma Draw_dirty (src : Triangles) (td : TrianglesDrawer) (target : Target) :
  0 <= Triangles_Len src ->
  dirty td = true ->
  exists td1,
    TrianglesDrawer_Draw src td target = Done td1
    /\ forall k, is_Some (tris td !! k) ->
         exists r, tris td1 !! k = Some r /\ upToDate src (tt_data r).
Proof.
  intros Hlen Hd. unfold TrianglesDrawer_Draw.
  destruct (flush_dirty src td Hlen Hd) as (tdf & Hf & _ & Hlook).
  rewrite Hf. cbn [andThen].
  destruct (Draw_after_flush src tdf target Hlen) as (td2 & r & Hd2 & Htris & Hr).
  exists td2. split; [exact Hd2|]. rewrite Htris.
  intros k [t Hk]. pose proof (Hlook k) as Hlk. rewrite Hk in Hlk.
  destruct Hlk as (rk & Hrk & Hup).
  destruct (decide (target = k)) as [->|Hne].
  - rewrite lookup_insert_eq. rewrite Hrk in Hr. subst r. eauto.
  - rewrite lookup_insert_ne by exact Hne. eauto.
Qed.

(** C7: a drawer is drawn to the targets [t1] and [t2]; its vertices change
    and it is marked dirty.  The next draw, to any target, returns, and
    afterwards the resources of [t1] and [t2], as every resource of the
    cache, have the length of the source and have been updated from it in
    full; when the source is a [TrianglesData], as that of a Sprite or a
    Polygon, they hold exactly its vertices. *)
Theorem Draw_after_Dirty_updates_every_target
    (td0 : TrianglesDrawer) (src0 src1 : Triangles) (t1 t2 target : Target) :
  0 <= Triangles_Len src0 ->
  0 <= Triangles_Len src1 ->
  exists tda tdb tdc,
    TrianglesDrawer_Draw src0 td0 t1 = Done tda
    /\ TrianglesDrawer_Draw src0 tda t2 = Done tdb
    /\ TrianglesDrawer_Draw src1 (TrianglesDrawer_Dirty tdb) target = Done tdc
    /\ is_Some (tris tdb !! t1)
    /\ is_Some (tris tdb !! t2)
    /\ forall k, is_Some (tris tdb !! k) ->
         exists r, tris tdc !! k = Some r
                   /\ upToDate src1 (tt_data r)
                   /\ forall v, src1 = IsTrianglesData v -> tt_data r = v.
Proof.
  intros Hlen0 Hlen1.
  destruct (Draw_returns src0 td0 t1 Hlen0) as (tda & Ha & Ha1 & _).
  destruct (Draw_returns src0 tda t2 Hlen0) as (tdb & Hb & Hb2 & Hkeep).
  destruct (Draw_dirty src1 (TrianglesDrawer_Dirty tdb) target Hlen1 eq_refl)
    as (tdc & Hc & Hall).
  exists tda, tdb, tdc. repeat split; try assumption.
  - apply Hkeep, Ha1.
  - intros k Hk. destruct (Hall k Hk) as (r & Hr & Hup).
    exists r. split; [exact Hr|]. split; [exact Hup|].
    intros v ->. apply upToDate_TrianglesData, Hup.
Qed.

Lemma Draw_after_Dirty_updates_every_target_witness :
  exists tda tdb tdc,
    TrianglesDrawer_Draw (IsTrianglesData (data triangle)) (td triangle) 1%positive = Done tda
    /\ TrianglesDrawer_Draw (IsTrianglesData (data triangle)) tda 2%positive = Done tdb
    /\ TrianglesDrawer_Draw (IsTrianglesData [defaultVertex]) (TrianglesDrawer_Dirty tdb)
         1%positive = Done tdc
    /\ is_Some (tris tdb !! 1%positive)
    /\ is_Some (tris tdb !! 2%positive)
    /\ forall k, is_Some (tris tdb !! k) ->
         exists r, tris tdc !! k = Some r
                   /\ upToDate (IsTrianglesData [defaultVertex]) (tt_data r)
                   /\ forall v, IsTrianglesData [defaultVertex] = IsTrianglesData v -> tt_data r = v.
Proof.
  apply (Draw_after_Dirty_updates_every_target (td triangle)
           (IsTrianglesData (data triangle)) (IsTrianglesData [defaultVertex])
           1%positive 2%positive 1%positive).
  - apply TrianglesData_Len_nonneg.
  - vm_compute. discriminate.
Defined.

(** ** Floating point arithmetic *)

#[export] Instance feq_equiv : Equivalence feq.
Proof.
  split.
  - intros x. left. reflexivity.
  - intros x y [->|[Hx Hy]]; [left; reflexivity|right; auto].
  - intros x y z [->|[Hx Hy]] [->|[Hy' Hz]]; unfold feq; auto.
Qed.

Lemma zero_feq (s s1 : bool) : feq (S754_zero s) (S754_zero s1).
Proof. right. auto. Qed.

Lemma is_zero_feq (x : spec_float) : Float.is_zero x = true -> feq x mgl32.zero.
Proof. intros H. right. auto. Qed.

#[export] Instance add32_feq : Proper (feq ==> feq ==> feq) Float.add32.
Proof.
  intros x x1 [->|[Hx Hx1]] y y1 [->|[Hy Hy1]]; try reflexivity.
  - destruct y as [sy| | |], y1 as [sy1| | |]; try discriminate.
    destruct x1 as [s| | |]; try reflexivity.
    destruct s, sy, sy1; apply zero_feq.
  - destruct x as [sx| | |], x1 as [sx1| | |]; try discriminate.
    destruct y1 as [s| | |]; try reflexivity.
    destruct s, sx, sx1; apply zero_feq.
  - destruct x as [sx| | |], x1 as [sx1| | |]; try discriminate.
    destruct y as [sy| | |], y1 as [sy1| | |]; try discriminate.
    destruct sx, sx1, sy, sy1; apply zero_feq.
Qed.

#[export] Instance mul32_feq : Proper (feq ==> feq ==> feq) Float.mul32.
Proof.
  intros x x1 [->|[Hx Hx1]] y y1 [->|[Hy Hy1]]; try reflexivity.
  - destruct y as [sy| | |], y1 as [sy1| | |]; try discriminate.
    destruct x1 as [s| | |]; try reflexivity; apply zero_feq.
  - destruct x as [sx| | |], x1 as [sx1| | |]; try discriminate.
    destruct y1 as [s| | |]; try reflexivity; apply zero_feq.
  - destruct x as [sx| | |], x1 as [sx1| | |]; try discriminate.
    destruct y as [sy| | |], y1 as [sy1| | |]; try discriminate.
    apply zero_feq.
Qed.

#[export] Instance to64_feq : Proper (feq ==> feq) Float.to64.
Proof.
  intros x x1 [->|[Hx Hx1]]; [reflexivity|].
  destruct x, x1; try discriminate. apply zero_feq.
Qed.

#[export] Instance neg32_feq : Proper (feq ==> feq) Float.neg32.
Proof.
  intros x x1 [->|[Hx Hx1]]; [reflexivity|].
  destruct x, x1; try discriminate. apply zero_feq.
Qed.

Lemma add32_zero_r (x : spec_float) : feq (Float.add32 x mgl32.zero) x.
Proof. destruct x as [[]| | |]; try reflexivity. apply zero_feq. Qed.

Lemma add32_zero_l (x : spec_float) : feq (Float.add32 mgl32.zero x) x.
Proof. destruct x as [[]| | |]; try reflexivity. apply zero_feq. Qed.

Lemma mul32_zero_l (x : spec_float) :
  Float.is_finite x = true -> feq (Float.mul32 mgl32.zero x) mgl32.zero.
Proof. destruct x; try discriminate; intros _; apply zero_feq. Qed.

Lemma mul32_zero_r (x : spec_float) :
  Float.is_finite x = true -> feq (Float.mul32 x mgl32.zero) mgl32.zero.
Proof. destruct x; try discriminate; intros _; apply zero_feq. Qed.

Lemma binary_round_aux_opp (prec emax : Z) (s : bool) (m e : Z) (l : location) :
  binary_round_aux prec emax (negb s) m e l = SFopp (binary_round_aux prec emax s m e l).
Proof.
  unfold binary_round_aux.
  destruct (shr_fexp prec emax m e l) as [mrs e1].
  destruct (shr_fexp prec emax _ e1 loc_Exact) as [mrs1 e2].
  destruct (shr_m mrs1); [reflexivity| |reflexivity].
  destruct (e2 <=? emax - prec); reflexivity.
Qed.

Lemma to32_neg64 (x : spec_float) : Float.to32 (Float.neg64 x) = Float.neg32 (Float.to32 x).
Proof.
  destruct x as [s|s| |s m e]; try reflexivity.
  unfold Float.to32, Float.neg64, Float.neg32. simpl SFopp at 1. unfold binary_round.
  destruct (shl_align _ _ _) as [mz ez]. apply binary_round_aux_opp.
Qed.

Lemma mul32_neg32_r (x y : spec_float) :
  Float.mul32 x (Float.neg32 y) = Float.neg32 (Float.mul32 x y).
Proof.
  destruct x as [sx|sx| |sx mx ex], y as [sy|sy| |sy my ey]; simpl; try reflexivity;
    try (rewrite <- negb_xorb_r; reflexivity).
  unfold Float.mul32, Float.neg32. simpl. rewrite <- negb_xorb_r. apply binary_round_aux_opp.
Qed.

Lemma add32_neg32 (x : spec_float) :
  Float.is_finite x = true -> feq (Float.add32 x (Float.neg32 x)) mgl32.zero.
Proof.
  destruct x as [s|s| |s m e]; try discriminate; intros _.
  - destruct s; apply zero_feq.
  - unfold Float.add32, Float.neg32. simpl. rewrite Z.min_id.
    unfold shl_align. rewrite Z.sub_diag. simpl.
    destruct s; simpl; [rewrite Z.add_opp_diag_l|rewrite Z.add_opp_diag_r]; reflexivity.
Qed.

Lemma mul32_one_l (x : spec_float) :
  Float.finite32 x = true -> Float.mul32 mgl32.one x = x.
Proof.
  destruct x as [s|s| |s m e]; try discriminate; intros H; [reflexivity|].
  unfold Float.finite32 in H. simpl in H.
  unfold bounded, canonical_mantissa, Float.prec32, Float.emax32 in H.
  apply andb_true_iff in H as [Hc He]. apply Z.eqb_eq in Hc. apply Z.leb_le in He.
  change (Float.mul32 mgl32.one (S754_finite s m e)) with
    (binary_round_aux 24 128 s (Zpos (Pos.mul 8388608 m)) (-23 + e) loc_Exact).
  unfold binary_round_aux, shr_fexp.
  set (M := (8388608 * m)%positive).
  assert (HM : M = Pos.iter xO m 23) by reflexivity.
  assert (Hd : Zdigits2 (Z.pos M) = Z.pos (digits2_pos m) + 23).
  { rewrite HM. cbn. rewrite !Pos2Z.inj_succ. lia. }
  rewrite Hd.
  replace (Z.pos (digits2_pos m) + 23 + (-23 + e)) with (Z.pos (digits2_pos m) + e) by lia.
  rewrite Hc. replace (e - (-23 + e)) with 23 by lia.
  assert (Hs : shr (shr_record_of_loc (Z.pos M) loc_Exact) (-23 + e) 23
               = (Build_shr_record (Z.pos m) false false, -23 + e + 23)).
  { rewrite HM. reflexivity. }
  rewrite Hs. cbn [shr_m loc_of_shr_record round_nearest_even].
  replace (-23 + e + 23) with e by lia. cbn [Zdigits2].
  rewrite Hc, Z.sub_diag. cbn [shr shr_record_of_loc shr_m].
  destruct (Z.leb_spec e (128 - 24)); [reflexivity|lia].
Qed.

Lemma mul32_one_r (x : spec_float) :
  Float.finite32 x = true -> Float.mul32 x mgl32.one = x.
Proof.
  intros H. rewrite <- (mul32_one_l x H) at 2.
  destruct x as [s|s| |s m e]; try discriminate; [destruct s; reflexivity|].
  change (Float.mul32 (S754_finite s m e) mgl32.one) with
    (binary_round_aux 24 128 (xorb s false) (Zpos (Pos.mul m 8388608)) (e + -23) loc_Exact).
  change (Float.mul32 mgl32.one (S754_finite s m e)) with
    (binary_round_aux 24 128 s (Zpos (Pos.mul 8388608 m)) (-23 + e) loc_Exact).
  rewrite xorb_false_r, Pos.mul_comm, Z.add_comm. reflexivity.
Qed.

(** [SFcompare] of a number with itself. *)
Lemma eqb_refl (x : spec_float) : x <> S754_nan -> Float.eqb x x = true.
Proof.
  intros Hx. unfold Float.eqb, SFeqb.
  destruct x as [s|s| |s m e]; try reflexivity; [destruct s; reflexivity|contradiction|].
  simpl. rewrite Z.compare_refl.
  assert (H : Pos.compare_cont Eq m m = Eq) by apply Pos.compare_refl.
  rewrite H. destruct s; reflexivity.
Qed.

Lemma shr_1_nonneg (mrs : shr_record) : 0 <= shr_m mrs -> 0 <= shr_m (shr_1 mrs).
Proof. destruct mrs as [[|p|p] r s]; simpl; intros H; try lia; destruct p; simpl; lia. Qed.

Lemma iter_shr_1_nonneg (n : positive) (mrs : shr_record) :
  0 <= shr_m mrs -> 0 <= shr_m (SpecFloat.iter_pos shr_1 n mrs).
Proof.
  revert mrs. induction n as [n IH|n IH|]; intros mrs H; simpl.
  - apply IH, IH, shr_1_nonneg, H.
  - apply IH, IH, H.
  - apply shr_1_nonneg, H.
Qed.

Lemma shr_fexp_nonneg (prec emax m e : Z) (l : location) :
  0 <= m -> 0 <= shr_m (fst (shr_fexp prec emax m e l)).
Proof.
  intros H. unfold shr_fexp, shr.
  assert (H0 : 0 <= shr_m (shr_record_of_loc m l)) by (destruct l as [|[]]; exact H).
  destruct (fexp prec emax (Zdigits2 m + e) - e); simpl; try exact H0.
  apply iter_shr_1_nonneg, H0.
Qed.

Lemma round_nearest_even_nonneg (m : Z) (l : location) :
  0 <= m -> 0 <= round_nearest_even m l.
Proof. intros H. destruct l as [|[]]; simpl; try lia. destruct (Z.even m); lia. Qed.

Lemma binary_round_aux_not_nan (prec emax : Z) (s : bool) (m e : Z) (l : location) :
  0 <= m -> binary_round_aux prec emax s m e l <> S754_nan.
Proof.
  intros H. unfold binary_round_aux.
  pose proof (shr_fexp_nonneg prec emax m e l H) as H1.
  destruct (shr_fexp prec emax m e l) as [mrs e1]. simpl in H1.
  pose proof (shr_fexp_nonneg prec emax _ e1 loc_Exact
                (round_nearest_even_nonneg _ (loc_of_shr_record mrs) H1)) as H2.
  destruct (shr_fexp prec emax _ e1 loc_Exact) as [mrs1 e2]. simpl in H2.
  destruct (shr_m mrs1) as [|p|p]; [discriminate| |lia].
  destruct (e2 <=? emax - prec); discriminate.
Qed.

Lemma to64_not_nan (x : spec_float) : x <> S754_nan -> Float.to64 x <> S754_nan.
Proof.
  destruct x as [s|s| |s m e]; try (intros _; discriminate); [contradiction|].
  intros _. unfold Float.to64, binary_round.
  destruct (shl_align _ _ _) as [mz ez]. apply binary_round_aux_not_nan. lia.
Qed.

Lemma finite32_is_finite (x : spec_float) :
  Float.finite32 x = true -> Float.is_finite x = true.
Proof. unfold Float.finite32. intros H. apply andb_true_iff in H. tauto. Qed.

Lemma finite32_neg32 (x : spec_float) :
  Float.finite32 (Float.neg32 x) = Float.finite32 x.
Proof. destruct x; reflexivity. Qed.

Ltac finite_side :=
  first [ assumption | reflexivity | apply finite32_is_finite; assumption ].

Ltac fsimpl :=
  repeat first
    [ rewrite mul32_one_l by finite_side
    | rewrite mul32_one_r by finite_side
    | rewrite mul32_zero_l by finite_side
    | rewrite mul32_zero_r by finite_side
    | rewrite add32_zero_r
    | rewrite add32_zero_l ].

Lemma Mul3_Ident3_Scale2D (sx sy : spec_float) :
  Float.finite32 sx = true -> Float.finite32 sy = true ->
  Mat3_feq (mgl32.Mul3 mgl32.Ident3 (mgl32.Scale2D sx sy)) (mgl32.Scale2D sx sy).
Proof.
  intros Hsx Hsy. unfold Mat3_feq, mgl32.Mul3, mgl32.Ident3, mgl32.Scale2D, mgl32.dot3.
  cbn [mgl32.m0 mgl32.m1 mgl32.m2 mgl32.m3 mgl32.m4 mgl32.m5 mgl32.m6 mgl32.m7 mgl32.m8].
  repeat split; fsimpl; reflexivity.
Qed.

Lemma Mul3_Scale2D_Translate2D (a : mgl32.Mat3) (sx sy ax ay : spec_float) :
  Mat3_feq a (mgl32.Scale2D sx sy) ->
  Float.finite32 sx = true -> Float.finite32 sy = true ->
  Float.finite32 ax = true -> Float.finite32 ay = true ->
  Mat3_feq (mgl32.Mul3 a (mgl32.Translate2D ax ay))
    (mgl32.mat3 sx mgl32.zero mgl32.zero mgl32.zero sy mgl32.zero
                (Float.mul32 sx ax) (Float.mul32 sy ay) mgl32.one).
Proof.
  intros (H0 & H1 & H2 & H3 & H4 & H5 & H6 & H7 & H8) Hsx Hsy Hax Hay.
  unfold mgl32.Scale2D in *.
  cbn [mgl32.m0 mgl32.m1 mgl32.m2 mgl32.m3 mgl32.m4 mgl32.m5 mgl32.m6 mgl32.m7 mgl32.m8] in *.
  unfold Mat3_feq, mgl32.Mul3, mgl32.Translate2D, mgl32.dot3.
  cbn [mgl32.m0 mgl32.m1 mgl32.m2 mgl32.m3 mgl32.m4 mgl32.m5 mgl32.m6 mgl32.m7 mgl32.m8].
  rewrite H0, H1, H2, H3, H4, H5, H6, H7, H8.
  repeat split; fsimpl; reflexivity.
Qed.

Lemma Mul3x1_affine (a : mgl32.Mat3) (sx sy tx ty x y : spec_float) :
  Mat3_feq a (mgl32.mat3 sx mgl32.zero mgl32.zero mgl32.zero sy mgl32.zero tx ty mgl32.one) ->
  Float.finite32 x = true -> Float.finite32 y = true ->
  Float.finite32 tx = true -> Float.finite32 ty = true ->
  feq (mgl32.v0 (mgl32.Mul3x1 a (mgl32.vec3 x y mgl32.one))) (Float.add32 (Float.mul32 sx x) tx)
  /\ feq (mgl32.v1 (mgl32.Mul3x1 a (mgl32.vec3 x y mgl32.one))) (Float.add32 (Float.mul32 sy y) ty).
Proof.
  intros (H0 & H1 & H2 & H3 & H4 & H5 & H6 & H7 & H8) Hx Hy Htx Hty.
  cbn [mgl32.m0 mgl32.m1 mgl32.m2 mgl32.m3 mgl32.m4 mgl32.m5 mgl32.m6 mgl32.m7 mgl32.m8] in *.
  unfold mgl32.Mul3x1, mgl32.dot3. cbn [mgl32.v0 mgl32.v1 mgl32.v2].
  rewrite H0, H1, H3, H4, H6, H7.
  split; fsimpl; reflexivity.
Qed.

Lemma Mat_unrotated (t : Transform) :
  pos t = complex (S754_zero false) (S754_zero false) ->
  rot t = S754_zero false ->
  Transform_Mat t =
    Some (mgl32.Mul3
            (mgl32.Mul3 mgl32.Ident3
               (mgl32.Scale2D (Float.to32 (X (sca t))) (Float.to32 (Y (sca t)))))
            (mgl32.Translate2D (Float.to32 (Float.neg64 (X (anc t))))
                               (Float.to32 (Float.neg64 (Y (anc t)))))).
Proof.
  intros Hpos Hrot. unfold Transform_Mat. rewrite Hpos, Hrot.
  change (mgl32.Rotate3DZ (Float.to32 (S754_zero false)))
    with (Some (mgl32.mat3 mgl32.one mgl32.zero mgl32.zero (Float.neg32 mgl32.zero)
                           mgl32.one mgl32.zero mgl32.zero mgl32.zero mgl32.one)).
  cbv iota beta.
  match goal with
  | |- Some (mgl32.Mul3 (mgl32.Mul3 ?m _) _) = _ =>
      replace m with mgl32.Ident3 by (vm_compute; reflexivity)
  end.
  reflexivity.
Qed.

(** The projection by a transform that neither moves nor rotates: the point
    is scaled, and the scaled anchor is subtracted from it. *)
Lemma Project_unrotated (t : Transform) (v : Vec) :
  let sx := Float.to32 (X (sca t)) in
  let sy := Float.to32 (Y (sca t)) in
  let ax := Float.to32 (Float.neg64 (X (anc t))) in
  let ay := Float.to32 (Float.neg64 (Y (anc t))) in
  let x := Float.to32 (X v) in
  let y := Float.to32 (Y v) in
  pos t = complex (S754_zero false) (S754_zero false) ->
  rot t = S754_zero false ->
  Float.finite32 sx = true -> Float.finite32 sy = true ->
  Float.finite32 ax = true -> Float.finite32 ay = true ->
  Float.finite32 x = true -> Float.finite32 y = true ->
  Float.finite32 (Float.mul32 sx ax) = true -> Float.finite32 (Float.mul32 sy ay) = true ->
  exists w,
    Transform_Project t v = Some w
    /\ feq (real w) (Float.to64 (Float.add32 (Float.mul32 sx x) (Float.mul32 sx ax)))
    /\ feq (imag w) (Float.to64 (Float.add32 (Float.mul32 sy y) (Float.mul32 sy ay))).
Proof.
  intros sx sy ax ay x y Hpos Hrot Hsx Hsy Hax Hay Hx Hy Htx Hty.
  unfold Transform_Project. rewrite (Mat_unrotated t Hpos Hrot).
  fold sx sy ax ay x y.
  pose proof (Mul3_Scale2D_Translate2D _ sx sy ax ay
                (Mul3_Ident3_Scale2D sx sy Hsx Hsy) Hsx Hsy Hax Hay) as Hmat.
  destruct (Mul3x1_affine _ _ _ _ _ x y Hmat Hx Hy Htx Hty) as [H0 H1].
  eexists. split; [reflexivity|]. unfold V. cbn [real imag].
  split; [rewrite H0|rewrite H1]; reflexivity.
Qed.

Lemma feq_eqb (x y : spec_float) : feq x y -> y <> S754_nan -> Float.eqb x y = true.
Proof.
  intros [->|[Hx Hy]] Hn; [apply eqb_refl, Hn|].
  destruct x, y; try discriminate. reflexivity.
Qed.

Lemma finite_not_nan (x : spec_float) : Float.is_finite x = true -> x <> S754_nan.
Proof. destruct x; discriminate. Qed.

(** C6, as the code has it: a point whose coordinates are finite at single
    precision is projected by [ZT]; the result is [==] to the point with its
    coordinates rounded to [float32], hence to the point itself when its
    coordinates are [float32] numbers. *)
Theorem ZT_Project_rounds_to_float32 (v : Vec) :
  fits32 v = true ->
  exists w,
    Transform_Project ZT v = Some w
    /\ Vec_eqb w (round32 v) = true
    /\ (round32 v = v -> Vec_eqb w v = true).
Proof.
  intros Hfit. unfold fits32 in Hfit. apply andb_true_iff in Hfit as [Hx Hy].
  destruct (Project_unrotated ZT v eq_refl eq_refl eq_refl eq_refl eq_refl eq_refl Hx Hy
              eq_refl eq_refl) as (w & Hw & Hre & Him).
  change (Float.to32 (X (sca ZT))) with mgl32.one in Hre.
  change (Float.to32 (Y (sca ZT))) with mgl32.one in Him.
  rewrite (mul32_one_l _ Hx) in Hre. rewrite (mul32_one_l _ Hy) in Him.
  rewrite (is_zero_feq (Float.mul32 mgl32.one (Float.to32 (Float.neg64 (X (anc ZT))))) eq_refl)
    in Hre.
  rewrite (is_zero_feq (Float.mul32 mgl32.one (Float.to32 (Float.neg64 (Y (anc ZT))))) eq_refl)
    in Him.
  rewrite add32_zero_r in Hre, Him.
  assert (Heq : Vec_eqb w (round32 v) = true).
  { unfold Vec_eqb, round32, V. cbn [real imag]. apply andb_true_iff. split.
    - apply feq_eqb; [exact Hre|]. apply to64_not_nan, finite_not_nan, finite32_is_finite, Hx.
    - apply feq_eqb; [exact Him|]. apply to64_not_nan, finite_not_nan, finite32_is_finite, Hy. }
  exists w. split; [exact Hw|]. split; [exact Heq|].
  intros Hr. rewrite Hr in Heq. exact Heq.
Qed.

Lemma ZT_Project_rounds_to_float32_witness :
  exists w,
    Transform_Project ZT (pt 5 (-3)) = Some w
    /\ Vec_eqb w (round32 (pt 5 (-3))) = true
    /\ Vec_eqb w (pt 5 (-3)) = true.
Proof.
  destruct (ZT_Project_rounds_to_float32 (pt 5 (-3))) as (w & Hw & Hround & Hsame).
  - vm_compute. reflexivity.
  - exists w. split; [exact Hw|]. split; [exact Hround|].
    apply Hsame. vm_compute. reflexivity.
Defined.

(** C6 fails at the point (0.1, 3): 0.1 is not a [float32] number, and the
    projection returns the [float32] nearest to it. *)
Lemma ZT_Project_changes_tenth :
  exists w,
    Transform_Project ZT (V tenth (Float.const64 3)) = Some w
    /\ Vec_eqb w (V tenth (Float.const64 3)) = false.
Proof. eexists. split; [vm_compute; reflexivity|]. vm_compute. reflexivity. Qed.

(** The condition on the coordinates is needed: an infinite y makes the x of
    the projection NaN, because [Project] adds [0 * y] to it. *)
Example ZT_Project_infinite_coordinate :
  exists w,
    Transform_Project ZT (V (Float.const64 1) (S754_infinity false)) = Some w
    /\ real w = S754_nan.
Proof. eexists. split; [vm_compute; reflexivity|reflexivity]. Qed.

(** C2, as the code has it: where the arithmetic stays within the finite
    numbers of [float32], the camera projects its centre to the origin (0, 0). *)
Theorem Camera_projects_center_to_origin (center zoom screenSize : Vec) :
  projectsFinitely (Camera center zoom screenSize) center = true ->
  exists w,
    Transform_Project (Camera center zoom screenSize) center = Some w
    /\ Vec_eqb w (V (Float.const64 0) (Float.const64 0)) = true.
Proof.
  intros Hfin. unfold projectsFinitely in Hfin.
  do 5 (apply andb_true_iff in Hfin as [Hfin ?]).
  rename Hfin into Hsx.
  set (t := Camera center zoom screenSize) in *.
  assert (Hax : Float.to32 (Float.neg64 (X (anc t))) = Float.neg32 (Float.to32 (X center)))
    by apply to32_neg64.
  assert (Hay : Float.to32 (Float.neg64 (Y (anc t))) = Float.neg32 (Float.to32 (Y center)))
    by apply to32_neg64.
  pose proof (Project_unrotated t center) as HP. cbv zeta in HP.
  rewrite Hax, Hay, !mul32_neg32_r, !finite32_neg32 in HP.
  destruct HP as (w & Hw & Hre & Him); try reflexivity; try assumption.
  rewrite add32_neg32 in Hre, Him by (apply finite32_is_finite; assumption).
  exists w. split; [exact Hw|].
  unfold Vec_eqb, V. cbn [real imag]. apply andb_true_iff.
  split; apply feq_eqb; try discriminate; assumption.
Qed.

Lemma Camera_projects_center_to_origin_witness :
  exists w,
    Transform_Project (Camera (pt 10 10) (pt 2 2) (pt 800 600)) (pt 10 10) = Some w
    /\ Vec_eqb w (V (Float.const64 0) (Float.const64 0)) = true.
Proof.
  apply (Camera_projects_center_to_origin (pt 10 10) (pt 2 2) (pt 800 600)).
  vm_compute. reflexivity.
Defined.

(** The condition on the arithmetic is needed: a screen of width 0 makes the
    scale infinite and the projection of the centre NaN. *)
Example Camera_empty_screen :
  exists w,
    Transform_Project (Camera (pt 10 10) (pt 2 2) (pt 0 600)) (pt 10 10) = Some w
    /\ real w = S754_nan.
Proof. eexists. split; [vm_compute; reflexivity|reflexivity]. Qed.

(** C2 fails at its own example: the centre (10, 10) is projected to (0, 0),
    not to (400, 300), with the zoom (2, 2) as with the constant 2. *)
Lemma Camera_center_is_not_half_screen :
  Transform_Project (Camera (pt 10 10) (pt 2 2) (pt 800 600)) (pt 10 10) = Some (pt 0 0)
  /\ Transform_Project (Camera (pt 10 10) (Vec_const 2) (pt 800 600)) (pt 10 10) = Some (pt 0 0)
  /\ Vec_eqb (pt 0 0) (pt 400 300) = false.
Proof. split; [|split]; vm_compute; reflexivity. Qed.

(** * Further properties *)

(** ** TrianglesData *)

(** X1: [MakeTrianglesData] of a length returns that many default vertices. *)
Theorem MakeTrianglesData_defaults (len : Z) :
  0 <= len ->
  MakeTrianglesData len = Done (replicate (Z.to_nat len) defaultVertex).
Proof.
  intros Hlen. unfold MakeTrianglesData. rewrite SetLen_nonneg by exact Hlen.
  simpl. rewrite Nat.sub_0_r. rewrite take_ge by (rewrite length_replicate; lia). reflexivity.
Qed.

Lemma MakeTrianglesData_defaults_witness :
  MakeTrianglesData 2 = Done [defaultVertex; defaultVertex].
Proof. apply (MakeTrianglesData_defaults 2). lia. Defined.

(** X2: [SetLen] keeps the original content: the result has the requested
    length, vertex [i] is the old vertex [i] where there was one, and the
    default vertex beyond. *)
Theorem SetLen_keeps_content (td : TrianglesData) (len : Z) :
  0 <= len ->
  exists td1,
    TrianglesData_SetLen td len = Done td1
    /\ TrianglesData_Len td1 = len
    /\ forall i : nat, (i < Z.to_nat len)%nat ->
         td1 !! i = Some (default defaultVertex (td !! i)).
Proof.
  intros Hlen. rewrite SetLen_nonneg by exact Hlen. eexists. split; [reflexivity|].
  split.
  - unfold TrianglesData_Len. rewrite length_take, length_app, length_replicate. lia.
  - intros i Hi. rewrite lookup_take_lt by exact Hi.
    destruct (td !! i) as [v|] eqn:Hv; simpl.
    + rewrite lookup_app_l by (eapply lookup_lt_Some; exact Hv). exact Hv.
    + apply lookup_ge_None in Hv. rewrite lookup_app_r by exact Hv.
      apply lookup_replicate_2. lia.
Qed.

Lemma SetLen_keeps_content_witness :
  exists td1,
    TrianglesData_SetLen [defaultVertex] 3 = Done td1
    /\ TrianglesData_Len td1 = 3
    /\ forall i : nat, (i < Z.to_nat 3)%nat ->
         td1 !! i = Some (default defaultVertex ([defaultVertex] !! i)).
Proof. apply (SetLen_keeps_content [defaultVertex] 3). lia. Defined.

(** X3: Growing a buffer and shrinking it back to its length gives the buffer
    back. *)
Theorem SetLen_grow_then_shrink (td : TrianglesData) (len : Z) :
  TrianglesData_Len td <= len ->
  exists td1,
    TrianglesData_SetLen td len = Done td1
    /\ TrianglesData_SetLen td1 (TrianglesData_Len td) = Done td.
Proof.
  intros Hlen. pose proof (TrianglesData_Len_nonneg td) as Hnn.
  rewrite SetLen_nonneg by lia. eexists. split; [reflexivity|].
  rewrite SetLen_nonneg by exact Hnn. f_equal.
  unfold TrianglesData_Len in *. rewrite Nat2Z.id.
  rewrite (take_ge (td ++ _)) by (rewrite length_app, length_replicate; lia).
  rewrite length_app, length_replicate.
  replace (length td - (length td + (Z.to_nat len - length td)))%nat with O by lia.
  simpl. rewrite app_nil_r. rewrite take_app_le by lia. apply take_ge. lia.
Qed.

Lemma SetLen_grow_then_shrink_witness :
  exists td1,
    TrianglesData_SetLen [withPosition (pt 1 2) defaultVertex] 4 = Done td1
    /\ TrianglesData_SetLen td1 (TrianglesData_Len [withPosition (pt 1 2) defaultVertex])
       = Done [withPosition (pt 1 2) defaultVertex].
Proof.
  apply (SetLen_grow_then_shrink [withPosition (pt 1 2) defaultVertex] 4).
  vm_compute. discriminate.
Defined.

(** X4: Shrinking discards: after shrinking a buffer and growing it back to its
    length, the vertices that were cut off are default vertices. *)
Theorem SetLen_shrink_then_grow (td : TrianglesData) (len : Z) :
  0 <= len <= TrianglesData_Len td ->
  exists td1,
    TrianglesData_SetLen td len = Done td1
    /\ td1 = take (Z.to_nat len) td
    /\ TrianglesData_SetLen td1 (TrianglesData_Len td)
       = Done (take (Z.to_nat len) td
               ++ replicate (length td - Z.to_nat len) defaultVertex).
Proof.
  intros [Hlen Hle]. unfold TrianglesData_Len in Hle.
  rewrite SetLen_nonneg by exact Hlen.
  replace (Z.to_nat len - length td)%nat with O by lia. simpl. rewrite app_nil_r.
  eexists. split; [reflexivity|]. split; [reflexivity|].
  rewrite SetLen_nonneg by apply TrianglesData_Len_nonneg. f_equal.
  unfold TrianglesData_Len. rewrite Nat2Z.id, length_take.
  replace (length td - Z.to_nat len `min` length td)%nat with (length td - Z.to_nat len)%nat by lia.
  apply take_ge. rewrite length_app, length_take, length_replicate. lia.
Qed.

Lemma SetLen_shrink_then_grow_witness :
  exists td1,
    TrianglesData_SetLen [withPosition (pt 1 2) defaultVertex; withPosition (pt 3 4) defaultVertex] 1
      = Done td1
    /\ td1 = [withPosition (pt 1 2) defaultVertex]
    /\ TrianglesData_SetLen td1 2 = Done [withPosition (pt 1 2) defaultVertex; defaultVertex].
Proof.
  apply (SetLen_shrink_then_grow
           [withPosition (pt 1 2) defaultVertex; withPosition (pt 3 4) defaultVertex] 1).
  vm_compute. split; discriminate.
Defined.

(** X5: [Update] from a source of the same length, field by field: each field of
    vertex [i] is the one of the source where the source has the capability,
    and is left as it was where it has not. *)
Theorem Update_field_by_field (td : TrianglesData) (s : Source) :
  src_Len s = TrianglesData_Len td ->
  exists td1,
    TrianglesData_Update td (OtherTriangles s) = Done td1
    /\ length td1 = length td
    /\ forall (i : nat) (v : Vertex), td !! i = Some v ->
         td1 !! i =
           Some {| Position := match src_Position s with
                               | Some position => position (Z.of_nat i)
                               | None => Position v
                               end;
                   Color := match src_Color s with
                            | Some color => color (Z.of_nat i)
                            | None => Color v
                            end;
                   Texture := match src_Texture s with
                              | Some texture => texture (Z.of_nat i)
                              | None => Texture v
                              end |}.
Proof.
  intros Hlen. unfold TrianglesData_Update. simpl Triangles_Len.
  rewrite Hlen, Z.eqb_refl. simpl negb. cbv iota.
  eexists. split; [reflexivity|]. split; [apply updateData_length|].
  intros i v Hv. simpl.
  destruct (src_Position s), (src_Color s), (src_Texture s);
    rewrite ?list_lookup_imap, Hv; destruct v; reflexivity.
Qed.

Lemma Update_field_by_field_witness :
  exists td1,
    TrianglesData_Update [defaultVertex]
      (OtherTriangles {| src_Len := 1; src_Position := None;
                         src_Color := Some (fun _ => col triangle); src_Texture := None |})
      = Done td1
    /\ length td1 = 1%nat
    /\ forall (i : nat) (v : Vertex), [defaultVertex] !! i = Some v ->
         td1 !! i = Some {| Position := Position v; Color := col triangle; Texture := Texture v |}.
Proof.
  apply (Update_field_by_field [defaultVertex]
           {| src_Len := 1; src_Position := None;
              src_Color := Some (fun _ => col triangle); src_Texture := None |}).
  reflexivity.
Defined.



(** X7: [Copy] never panics and returns a buffer equal to this one. *)
Theorem Copy_is_equal (td : TrianglesData) : TrianglesData_Copy td = Done td.
Proof.
  unfold TrianglesData_Copy.
  destruct (SetLen_then_Update [] (IsTrianglesData td) (TrianglesData_Len_nonneg td))
    as (d1 & Hd1 & Hup).
  simpl Triangles_Len in Hd1. rewrite Hd1. f_equal.
  apply upToDate_TrianglesData, Hup.
Qed.

(** ** The draw cache *)

Lemma flushBody_withData (src : Triangles) (t : TargetTriangles) :
  0 <= Triangles_Len src ->
  exists d1, flushBody src t = Done (withData d1 t) /\ upToDate src d1.
Proof.
  intros Hlen. unfold flushBody, TargetTriangles_SetLen, TargetTriangles_Update.
  destruct (SetLen_then_Update (tt_data t) src Hlen) as (d1 & Hd1 & Hup).
  destruct (TrianglesData_SetLen (tt_data t) (Triangles_Len src)) as [d0|e d0];
    cbn [andThen] in *; [|discriminate].
  simpl. rewrite Hd1. cbn [andThen]. exists d1. split; [reflexivity|exact Hup].
Qed.

Lemma flushLoop_draws (src : Triangles) (entries : list (Target * TargetTriangles))
    (m : gmap Target TargetTriangles) :
  0 <= Triangles_Len src ->
  (forall k t, (k, t) ∈ entries -> tt_draws <$> m !! k = Some (tt_draws t)) ->
  exists m1,
    flushLoop src entries m = Done m1
    /\ forall k, tt_draws <$> m1 !! k = tt_draws <$> m !! k.
Proof.
  intros Hlen. revert m. induction entries as [|[k t] rest IH]; intros m Hm.
  - exists m. split; reflexivity.
  - cbn [flushLoop]. destruct (flushBody_withData src t Hlen) as (d1 & Hd1 & _).
    rewrite Hd1.
    assert (Hsame : forall j, tt_draws <$> <[k := withData d1 t]> m !! j = tt_draws <$> m !! j).
    { intros j. destruct (decide (k = j)) as [->|Hne].
      - rewrite lookup_insert_eq. simpl. symmetry. apply Hm. left.
      - rewrite lookup_insert_ne by exact Hne. reflexivity. }
    destruct (IH (<[k := withData d1 t]> m)) as (m1 & Hm1 & Hdraws).
    { intros j u Hj. rewrite Hsame. apply Hm. right. exact Hj. }
    exists m1. split; [exact Hm1|]. intros j. rewrite Hdraws. apply Hsame.
Qed.

(** [flush] returns a clean drawer; it adds no target, drops none, and
    draws nothing. *)
Lemma flush_draws (src : Triangles) (td : TrianglesDrawer) :
  0 <= Triangles_Len src ->
  exists tdf,
    TrianglesDrawer_flush src td = Done tdf
    /\ dirty tdf = false
    /\ forall k, tt_draws <$> tris tdf !! k = tt_draws <$> tris td !! k.
Proof.
  intros Hlen. unfold TrianglesDrawer_flush. destruct (dirty td) eqn:Hd; simpl negb; cbv iota.
  - destruct (flushLoop_draws src (map_to_list (tris td)) (tris td) Hlen) as (m1 & Hm1 & Hdraws).
    { intros k t Hk. apply elem_of_map_to_list in Hk. rewrite Hk. reflexivity. }
    rewrite Hm1. cbn [andThen]. eexists. split; [reflexivity|]. split; [reflexivity|exact Hdraws].
  - exists td. split; [reflexivity|]. split; [exact Hd|reflexivity].
Qed.

Lemma MakeTriangles_draws (target : Target) (src : Triangles) (r : TargetTriangles) :
  Target_MakeTriangles target src = Done r -> tt_draws r = O.
Proof.
  unfold Target_MakeTriangles, TargetTriangles_Update. intros H.
  destruct (MakeTrianglesData (Triangles_Len src)) as [d0|e d0]; cbn [andThen] in H; [|discriminate].
  destruct (TrianglesData_Update _ src) as [d1|e d1]; cbn [andThen] in H; [|discriminate].
  injection H as <-. reflexivity.
Qed.

(** X9: The bookkeeping of [Draw]: it returns a clean drawer in which the
    resource of the target has been drawn once more (once, when it is new),
    and every other target has the resource count it had: no other resource
    is made, dropped or drawn. *)
Theorem Draw_draws_the_target_once (src : Triangles) (td : TrianglesDrawer) (target : Target) :
  0 <= Triangles_Len src ->
  exists td1,
    TrianglesDrawer_Draw src td target = Done td1
    /\ dirty td1 = false
    /\ tt_draws <$> tris td1 !! target
       = Some (S (default O (tt_draws <$> tris td !! target)))
    /\ forall k, k <> target -> tt_draws <$> tris td1 !! k = tt_draws <$> tris td !! k.
Proof.
  intros Hlen. unfold TrianglesDrawer_Draw.
  destruct (flush_draws src td Hlen) as (tdf & Hf & Hclean & Hdraws).
  rewrite Hf. cbn [andThen]. rewrite <- Hdraws.
  assert (Hother : forall (x : TargetTriangles) k, k <> target ->
            tt_draws <$> <[target := x]> (tris tdf) !! k = tt_draws <$> tris td !! k).
  { intros x k Hk. rewrite lookup_insert_ne by congruence. apply Hdraws. }
  destruct (tris tdf !! target) as [tri|] eqn:Htri.
  - eexists. split; [reflexivity|]. cbn [tris dirty]. split; [exact Hclean|]. split.
    + rewrite lookup_insert_eq. reflexivity.
    + apply Hother.
  - destruct (MakeTriangles_returns target src Hlen) as (r & Hr & _).
    rewrite Hr. cbn [andThen]. eexists. split; [reflexivity|]. cbn [tris dirty].
    split; [exact Hclean|]. split.
    + rewrite lookup_insert_eq. simpl. rewrite (MakeTriangles_draws target src r Hr). reflexivity.
    + apply Hother.
Qed.

Lemma Draw_draws_the_target_once_witness :
  exists td1,
    TrianglesDrawer_Draw (IsTrianglesData (data triangle)) (td triangle) 7%positive = Done td1
    /\ dirty td1 = false
    /\ tt_draws <$> tris td1 !! 7%positive
       = Some (S (default O (tt_draws <$> tris (td triangle) !! 7%positive)))
    /\ forall k, k <> 7%positive ->
         tt_draws <$> tris td1 !! k = tt_draws <$> tris (td triangle) !! k.
Proof.
  apply (Draw_draws_the_target_once (IsTrianglesData (data triangle)) (td triangle) 7%positive).
  apply TrianglesData_Len_nonneg.
Defined.

(** X10: Without [Dirty] the cache is not refreshed: a clean drawer that has a
    resource for the target draws it as it is, whatever the source holds
    now, and leaves every resource's vertices as they were. *)
Theorem Draw_clean_does_not_update
    (src : Triangles) (td : TrianglesDrawer) (target : Target) (r : TargetTriangles) :
  dirty td = false ->
  tris td !! target = Some r ->
  exists td1,
    TrianglesDrawer_Draw src td target = Done td1
    /\ forall k, tt_data <$> tris td1 !! k = tt_data <$> tris td !! k.
Proof.
  intros Hd Hr. unfold TrianglesDrawer_Draw, TrianglesDrawer_flush.
  rewrite Hd. simpl negb. cbn [andThen]. rewrite Hr.
  eexists. split; [reflexivity|]. intros k. simpl.
  destruct (decide (target = k)) as [->|Hne].
  - rewrite lookup_insert_eq, Hr. reflexivity.
  - rewrite lookup_insert_ne by exact Hne. reflexivity.
Qed.

(** Drawing a dirty drawer leaves no stale resource: every resource of the
    cache after the draw is up to date with the source. *)
Lemma Draw_dirty_all (src : Triangles) (td : TrianglesDrawer) (target : Target) :
  0 <= Triangles_Len src ->
  dirty td = true ->
  exists td1,
    TrianglesDrawer_Draw src td target = Done td1
    /\ forall k r1, tris td1 !! k = Some r1 -> upToDate src (tt_data r1).
Proof.
  intros Hlen Hd. unfold TrianglesDrawer_Draw.
  destruct (flush_dirty src td Hlen Hd) as (tdf & Hf & _ & Hlook).
  rewrite Hf. cbn [andThen].
  assert (Hflushed : forall k r, tris tdf !! k = Some r -> upToDate src (tt_data r)).
  { intros k r Hk. specialize (Hlook k). destruct (tris td !! k).
    - destruct Hlook as (r0 & Hr0 & Hup). congruence.
    - congruence. }
  destruct (Draw_after_flush src tdf target Hlen) as (td2 & r & Hd2 & Htris & Hr).
  exists td2. split; [exact Hd2|]. rewrite Htris. intros k r1 Hk.
  destruct (decide (target = k)) as [->|Hne].
  - rewrite lookup_insert_eq in Hk. injection Hk as <-. simpl.
    destruct (tris tdf !! k) as [tri|] eqn:Htri; [|exact Hr].
    subst r. apply (Hflushed k tri Htri).
  - rewrite lookup_insert_ne in Hk by exact Hne. apply (Hflushed k r1 Hk).
Qed.

(** ** Polygon *)

Lemma forLoop_invariant {St : Type} (P : St -> Prop) (body : Z -> St -> outcome St) :
  (forall i s s1, P s -> body i s = Done s1 -> P s1) ->
  forall (count : nat) (i : Z) (s s1 : St),
    P s -> forLoop body i count s = Done s1 -> P s1.
Proof.
  intros Hbody. induction count as [|n IH]; intros i s s1 Hs Hloop; simpl in Hloop.
  - injection Hloop as <-. exact Hs.
  - destruct (body i s) as [s2|e s2] eqn:Hb; cbn [andThen] in Hloop; [|discriminate].
    apply (IH (i + 1) s2 s1); [|exact Hloop]. apply (Hbody i s s2 Hs Hb).
Qed.

Lemma assignPosition_keeps (points : list Vec) (j i : Z) (d0 d d1 : TrianglesData) :
  sameButPositions d0 d -> assignPosition points j i d = Done d1 -> sameButPositions d0 d1.
Proof.
  intros (Hl & Hc & Ht) H. unfold assignPosition in H.
  destruct ((j <? 0) || (i <? 0)); [discriminate|].
  destruct (points !! Z.to_nat j) as [v|]; [|discriminate].
  destruct (d !! Z.to_nat i); [|discriminate]. injection H as <-.
  split; [|split].
  - rewrite length_alter. exact Hl.
  - rewrite (list_fmap_alter Color (withPosition v) id)
      by (apply Forall_forall; intros; reflexivity).
    rewrite (list_alter_id id _ _ (fun _ => eq_refl)). exact Hc.
  - rewrite (list_fmap_alter Texture (withPosition v) id)
      by (apply Forall_forall; intros; reflexivity).
    rewrite (list_alter_id id _ _ (fun _ => eq_refl)). exact Ht.
Qed.

Lemma fanBody_keeps (points : list Vec) (d0 : TrianglesData) (i : Z) (d d1 : TrianglesData) :
  sameButPositions d0 d -> fanBody points i d = Done d1 -> sameButPositions d0 d1.
Proof.
  intros Hd H. unfold fanBody in H.
  destruct (assignPosition points 0 _ d) as [da|e da] eqn:Ha; cbn [andThen] in H; [|discriminate].
  destruct (assignPosition points (i - 1) _ da) as [db|e db] eqn:Hb;
    cbn [andThen] in H; [|discriminate].
  eapply assignPosition_keeps; [|exact H].
  eapply assignPosition_keeps; [|exact Hb].
  eapply assignPosition_keeps; [|exact Ha]. exact Hd.
Qed.

(** A call of [SetPoints] that returns: the buffer has three vertices for
    each of the n-2 triangles, the texture coordinates are those of the
    vertices kept and the default ones for the new vertices, and the drawer
    is marked dirty with its cache as it was. *)
Lemma SetPoints_Done_shape (points : list Vec) (p p1 : Polygon) :
  Polygon_SetPoints points p = Done p1 ->
  (2 <= length points)%nat
  /\ length (data p1) = (3 * (length points - 2))%nat
  /\ (forall x, Forall (fun v => Texture v = x) (defaultVertex :: data p) ->
                Forall (fun v => Texture v = x) (data p1))
  /\ td p1 = TrianglesDrawer_Dirty (td p).
Proof.
  unfold Polygon_SetPoints. intros H.
  destruct (TrianglesData_SetLen _ _) as [d1|e d1] eqn:Hset; cbn [andThen] in H; [|discriminate].
  destruct (forLoop _ _ _ _) as [d2|e d2] eqn:Hloop; cbn [andThen] in H; [|discriminate].
  injection H as <-. cbn [data td].
  destruct (SetLen_Done_Len _ _ _ Hset) as [Hnn Hlen1].
  rewrite SetLen_nonneg in Hset by exact Hnn. injection Hset as Hd1.
  assert (Hsame : sameButPositions d1 d2).
  { eapply (forLoop_invariant (sameButPositions d1) (fanBody points));
      [|repeat split|exact Hloop].
    intros i s s1 Hs Hb. exact (fanBody_keeps points d1 i s s1 Hs Hb). }
  destruct Hsame as (Hl & _ & Ht).
  split; [lia|]. split; [|split; [|reflexivity]].
  - rewrite length_map, Hl. unfold TrianglesData_Len in Hlen1. lia.
  - intros x Hx. apply Forall_cons in Hx as [Hdef Hx].
    assert (H1 : Forall (fun v => Texture v = x) d1).
    { rewrite <- Hd1. apply Forall_take, Forall_app. split; [exact Hx|].
      apply Forall_replicate. exact Hdef. }
    assert (H2 : Forall (fun y => y = x) (Texture <$> d2)).
    { rewrite Ht. apply Forall_fmap. exact H1. }
    apply Forall_fmap in H2. apply Forall_map. exact H2.
Qed.

Lemma fanFrom_lookup (p0 : Vec) (rest : list Vec) (k : nat) :
  (k + 1 < length rest)%nat ->
  fanFrom p0 rest !! (3 * k)%nat = Some p0
  /\ fanFrom p0 rest !! (3 * k + 1)%nat = rest !! k
  /\ fanFrom p0 rest !! (3 * k + 2)%nat = rest !! (k + 1)%nat.
Proof.
  revert rest. induction k as [|k IH]; intros rest Hk.
  - destruct rest as [|a [|b tl]]; simpl in Hk; try lia. repeat split.
  - destruct rest as [|a [|b tl]]; simpl in Hk; try lia.
    change (fanFrom p0 (a :: b :: tl)) with (p0 :: a :: b :: fanFrom p0 (b :: tl)).
    destruct (IH (b :: tl)) as (H0 & H1 & H2); [simpl; lia|].
    replace (3 * S k)%nat with (S (S (S (3 * k)))) by lia.
    replace (S (S (S (3 * k))) + 1)%nat with (S (S (S (3 * k + 1)))) by lia.
    replace (S (S (S (3 * k))) + 2)%nat with (S (S (S (3 * k + 2)))) by lia.
    replace (S k + 1)%nat with (S (k + 1)) by lia.
    simpl. simpl in H0, H1, H2. auto.
Qed.

(** X11: [SetPoints] with n >= 2 points returns; the buffer holds n-2 triangles,
    and triangle [k] has the positions [points[0]], [points[k+1]] and
    [points[k+2]]; the colour of the polygon is as it was and the drawer is
    marked dirty. *)
Theorem SetPoints_triangulates (points : list Vec) (p : Polygon) :
  (2 <= length points)%nat ->
  exists p1,
    Polygon_SetPoints points p = Done p1
    /\ length (data p1) = (3 * (length points - 2))%nat
    /\ (forall k : nat, (k + 2 < length points)%nat ->
          Polygon_Points p1 !! (3 * k)%nat = points !! O
          /\ Polygon_Points p1 !! (3 * k + 1)%nat = points !! (k + 1)%nat
          /\ Polygon_Points p1 !! (3 * k + 2)%nat = points !! (k + 2)%nat)
    /\ col p1 = col p
    /\ td p1 = TrianglesDrawer_Dirty (td p).
Proof.
  intros Hn. destruct (SetPoints_fan points p Hn) as (p1 & Hp1 & Hfan & Hcol & _).
  destruct (SetPoints_Done_shape points p p1 Hp1) as (_ & Hlen & _ & Htd).
  exists p1. split; [exact Hp1|]. split; [exact Hlen|]. split; [|split; assumption].
  intros k Hk. rewrite Hfan. destruct points as [|p0 rest]; [simpl in Hn; lia|].
  simpl in Hk. destruct (fanFrom_lookup p0 rest k) as (H0 & H1 & H2); [lia|].
  unfold fan. rewrite H0, H1, H2.
  replace (k + 2)%nat with (S (k + 1)) by lia. replace (k + 1)%nat with (S k) by lia.
  repeat split; reflexivity.
Qed.

Lemma SetPoints_triangulates_witness :
  exists p1,
    Polygon_SetPoints square triangle = Done p1
    /\ length (data p1) = (3 * (length square - 2))%nat
    /\ (forall k : nat, (k + 2 < length square)%nat ->
          Polygon_Points p1 !! (3 * k)%nat = square !! O
          /\ Polygon_Points p1 !! (3 * k + 1)%nat = square !! (k + 1)%nat
          /\ Polygon_Points p1 !! (3 * k + 2)%nat = square !! (k + 2)%nat)
    /\ col p1 = col triangle
    /\ td p1 = TrianglesDrawer_Dirty (td triangle).
Proof. apply (SetPoints_triangulates square triangle). simpl. lia. Defined.

Section MorePolygonFacts.

Variable color_Color : Type.
Variable NRGBAModel_Convert : color_Color -> NRGBA.

(** X12: For three points [Points] does return the points supplied. *)
Theorem Points_of_three (c : color_Color) (a b c1 : Vec) :
  exists p,
    NewPolygon color_Color NRGBAModel_Convert c [a; b; c1] = Done p
    /\ Polygon_Points p = [a; b; c1].
Proof.
  unfold NewPolygon.
  destruct (SetPoints_fan [a; b; c1]
              (Polygon_SetColor color_Color NRGBAModel_Convert c emptyPolygon))
    as (p & Hp & Hfan & _); [simpl; lia|].
  exists p. split; [exact Hp|exact Hfan].
Qed.

(** X13: Every polygon that the public operations produce or leave behind is a
    list of whole triangles without texture: the length of its buffer is a
    multiple of 3 and every vertex has the texture coordinates (-1, -1). *)
Theorem reachable_untextured_triangles (p : Polygon) :
  reachable color_Color NRGBAModel_Convert p ->
  (exists k : nat, length (data p) = (3 * k)%nat)
  /\ Forall (fun v => Texture v = V (Float.const64 (-1)) (Float.const64 (-1))) (data p).
Proof.
  intros Hr.
  induction Hr as [c points p Hnew|op p p1 Hr IH Hop|op e p p1 Hr IH Hop].
  - unfold NewPolygon in Hnew.
    destruct (SetPoints_Done_shape _ _ _ Hnew) as (_ & Hlen & Htex & _).
    split; [eexists; exact Hlen|]. apply Htex. repeat constructor.
  - destruct IH as [[k Hk] Htex]. destruct op as [c|points|t]; simpl in Hop.
    + injection Hop as <-. simpl. split.
      * exists k. rewrite length_map. exact Hk.
      * apply Forall_map. exact Htex.
    + destruct (SetPoints_Done_shape _ _ _ Hop) as (_ & Hlen & Htex1 & _).
      split; [eexists; exact Hlen|]. apply Htex1. constructor; [reflexivity|exact Htex].
    + pose proof (Draw_keeps_vertices p t) as Hd. rewrite Hop in Hd.
      destruct Hd as [-> _]. eauto.
  - destruct op as [c|points|t]; simpl in Hop.
    + discriminate.
    + apply SetPoints_Panicked_unchanged in Hop. subst p1. exact IH.
    + pose proof (Draw_keeps_vertices p t) as Hd. rewrite Hop in Hd.
      destruct Hd as [-> _]. exact IH.
Qed.

(** X14: After a change of colour or of points, one draw brings the whole cache
    up to date: it returns, and every resource of the cache, for the target
    drawn and for the targets drawn before, holds the vertices of the
    polygon. *)
Theorem Draw_after_change (op : PolygonOp color_Color) (p p1 : Polygon) (t : Target) :
  (forall t1, op <> OpDraw color_Color t1) ->
  applyOp color_Color NRGBAModel_Convert op p = Done p1 ->
  exists p2,
    Polygon_Draw p1 t = Done p2
    /\ data p2 = data p1
    /\ is_Some (tris (td p2) !! t)
    /\ (forall k, is_Some (tris (td p) !! k) -> is_Some (tris (td p2) !! k))
    /\ forall k r, tris (td p2) !! k = Some r -> tt_data r = data p1.
Proof.
  intros Hop Happ.
  assert (Htd : td p1 = TrianglesDrawer_Dirty (td p)).
  { destruct op as [c|points|t1]; simpl in Happ.
    - injection Happ as <-. reflexivity.
    - apply SetPoints_Done_shape in Happ. tauto.
    - destruct (Hop t1). reflexivity. }
  pose proof (TrianglesData_Len_nonneg (data p1)) as Hlen.
  destruct (Draw_dirty_all (IsTrianglesData (data p1)) (td p1) t Hlen) as (td2 & Hd2 & Hall).
  { rewrite Htd. reflexivity. }
  destruct (Draw_returns (IsTrianglesData (data p1)) (td p1) t Hlen) as (td3 & Hd3 & Ht & Hkeep).
  rewrite Hd2 in Hd3. injection Hd3 as <-.
  unfold Polygon_Draw. rewrite Hd2. cbn [andThen]. eexists. split; [reflexivity|].
  cbn [data td]. split; [reflexivity|]. split; [exact Ht|]. split.
  - intros k Hk. apply Hkeep. rewrite Htd. exact Hk.
  - intros k r Hk. apply upToDate_TrianglesData. apply (Hall k r Hk).
Qed.

End MorePolygonFacts.

Lemma Draw_after_change_witness :
  exists p2,
    Polygon_Draw (Polygon_SetColor NRGBA id (col emptyPolygon) triangle) 3%positive = Done p2
    /\ data p2 = data (Polygon_SetColor NRGBA id (col emptyPolygon) triangle)
    /\ is_Some (tris (td p2) !! 3%positive)
    /\ (forall k, is_Some (tris (td triangle) !! k) -> is_Some (tris (td p2) !! k))
    /\ forall k r, tris (td p2) !! k = Some r ->
         tt_data r = data (Polygon_SetColor NRGBA id (col emptyPolygon) triangle).
Proof.
  apply (Draw_after_change NRGBA id (OpSetColor NRGBA (col emptyPolygon)) triangle
           (Polygon_SetColor NRGBA id (col emptyPolygon) triangle) 3%positive).
  - intros t1. discriminate.
  - reflexivity.
Defined.

Lemma reachable_untextured_triangles_witness :
  (exists k : nat, length (data triangle) = (3 * k)%nat)
  /\ Forall (fun v => Texture v = V (Float.const64 (-1)) (Float.const64 (-1))) (data triangle).
Proof.
  apply (reachable_untextured_triangles NRGBA id triangle).
  apply (reachable_new NRGBA id white [pt 0 0; pt 1 0; pt 1 1]).
  vm_compute. reflexivity.
Defined.

(** X15: [Draw] of a polygon never panics, whatever the polygon and its cache
    hold, and changes neither its vertices nor its colour. *)
Theorem Polygon_Draw_returns (p : Polygon) (t : Target) :
  exists p1, Polygon_Draw p t = Done p1 /\ data p1 = data p /\ col p1 = col p.
Proof.
  destruct (Draw_returns (IsTrianglesData (data p)) (td p) t (TrianglesData_Len_nonneg (data p)))
    as (td1 & Hd1 & _).
  unfold Polygon_Draw. rewrite Hd1. cbn [andThen]. eexists. repeat split.
Qed.

Lemma Draw_clean_does_not_update_witness :
  exists td1,
    TrianglesDrawer_Draw (IsTrianglesData [defaultVertex]) cleanDrawer 1%positive = Done td1
    /\ forall k, tt_data <$> tris td1 !! k = tt_data <$> tris cleanDrawer !! k.
Proof.
  apply (Draw_clean_does_not_update (IsTrianglesData [defaultVertex]) cleanDrawer 1%positive
           {| tt_data := data triangle; tt_draws := 1 |}).
  - reflexivity.
  - apply lookup_singleton_eq.
Defined.

(** ** Sprite *)

Lemma eqb_feq (x y : spec_float) : Float.eqb x y = true -> feq x y.
Proof.
  unfold Float.eqb, SFeqb.
  destruct x as [[]|[]| |[] m e], y as [[]|[]| |[] m1 e1]; simpl;
    try discriminate; try (intros _; apply zero_feq); try (intros _; reflexivity).
  all: intros H; left;
    destruct (Z.compare_spec e e1) as [He|He|He]; try discriminate;
    destruct (Pos.compare_cont Eq m m1) eqn:Hm; try discriminate;
    apply Pos.compare_eq in Hm; subst; reflexivity.
Qed.

Lemma Vec_eqb_feq (u v : Vec) : Vec_eqb u v = true -> Vec_feq u v.
Proof.
  unfold Vec_eqb. intros H. apply andb_true_iff in H as [Hr Hi].
  split; apply eqb_feq; assumption.
Qed.

Lemma corners_feq (u v : Vec) : Vec_feq u v -> Forall2 Vec_feq (corners u) (corners v).
Proof.
  intros [Hr Hi]. unfold corners, XY, X, Y.
  do 6 (constructor; [split; simpl; (assumption || reflexivity)|]).
  constructor.
Qed.

Lemma Forall2_Vec_feq_refl (l : list Vec) : Forall2 Vec_feq l l.
Proof. apply Forall2_same_length_lookup_2; [reflexivity|]. intros i x y Hx Hy.
  rewrite Hx in Hy. injection Hy as <-. split; reflexivity. Qed.

Lemma Forall2_Vec_feq_trans (l1 l2 l3 : list Vec) :
  Forall2 Vec_feq l1 l2 -> Forall2 Vec_feq l2 l3 -> Forall2 Vec_feq l1 l3.
Proof.
  intros H12. revert l3. induction H12 as [|x y l1 l2 [Hr Hi] _ IH]; intros l3 H23.
  - inversion H23. constructor.
  - inversion H23 as [|? z ? l3' [Hr' Hi'] H23']; subst. constructor.
    + split; etrans; eassumption.
    + apply IH. exact H23'.
Qed.

(** The six assignments of [SetPicture] on a buffer of six vertices: they
    return, and change the positions alone. *)
Lemma setCorners_six (w h : Float.float64) (d : TrianglesData) :
  length d = 6%nat ->
  exists d1,
    Sprite.setCorners w h d = Done d1
    /\ Position <$> d1 = corners (V w h)
    /\ Texture <$> d1 = Texture <$> d
    /\ Color <$> d1 = Color <$> d.
Proof.
  intros Hlen.
  destruct d as [|v0 [|v1 [|v2 [|v3 [|v4 [|v5 [|]]]]]]]; try discriminate.
  eexists. split; [reflexivity|]. repeat split.
Qed.

Lemma wellFormed_length (s : Sprite.Sprite) : sprite_wellFormed s -> length (Sprite.data s) = 6%nat.
Proof.
  intros (p & _ & Ht & _). apply (f_equal length) in Ht. rewrite !length_fmap in Ht. exact Ht.
Qed.

Lemma NewSprite_shape (newPic : Picture) :
  exists s, Sprite.NewSprite newPic = Done s /\ sprite_wellFormed s.
Proof.
  destruct newPic as [[w h]]. eexists. split; [reflexivity|].
  exists {| Bounds_Size := complex w h |}. cbn.
  repeat split. apply Forall2_Vec_feq_refl.
Qed.

Lemma SetPicture_shape (s : Sprite.Sprite) (old newPic : Picture) :
  sprite_wellFormed s ->
  Sprite.pic s = Some old ->
  exists s1,
    Sprite.SetPicture s newPic = Done s1
    /\ sprite_wellFormed s1
    /\ Sprite.pic s1 = Some newPic
    /\ if Vec_eqb (Bounds_Size old) (Bounds_Size newPic)
       then Sprite.data s1 = Sprite.data s /\ Sprite.td s1 = Sprite.td s
       else Position <$> Sprite.data s1 = corners (Bounds_Size newPic)
            /\ Sprite.td s1 = TrianglesDrawer_Dirty (Sprite.td s).
Proof.
  intros Hwf Hold. pose proof (wellFormed_length s Hwf) as Hlen.
  destruct Hwf as (p & Hp & Ht & Hc & Hpos). rewrite Hold in Hp. injection Hp as <-.
  unfold Sprite.SetPicture. rewrite Hold.
  destruct (Vec_eqb (Bounds_Size old) (Bounds_Size newPic)) eqn:Heq.
  - eexists. split; [reflexivity|]. cbn [Sprite.data Sprite.td Sprite.pic].
    split; [|split; [reflexivity|split; reflexivity]].
    exists newPic. cbn [Sprite.data Sprite.pic]. repeat split; try assumption.
    eapply Forall2_Vec_feq_trans; [exact Hpos|]. apply corners_feq, Vec_eqb_feq, Heq.
  - destruct newPic as [[w h]]. cbn [XY X Y real imag Bounds_Size Sprite.data].
    destruct (setCorners_six w h (Sprite.data s) Hlen) as (d1 & Hd1 & Hp1 & Ht1 & Hc1).
    rewrite Hd1. cbn [andThen]. eexists. split; [reflexivity|].
    cbn [Sprite.data Sprite.td Sprite.pic].
    split; [|split; [reflexivity|split; [exact Hp1|reflexivity]]].
    exists {| Bounds_Size := complex w h |}. cbn [Sprite.data Sprite.pic Bounds_Size].
    split; [reflexivity|]. split; [congruence|]. split; [congruence|].
    rewrite Hp1. apply Forall2_Vec_feq_refl.
Qed.

(** X16: [NewSprite] returns a dirty sprite with an empty cache that holds the
    picture; its six positions are the corners of the picture, two triangles
    of (0,0), (w,0), (w,h), (0,h), its texture coordinates those of the unit
    square, and its vertices are white. *)
Theorem NewSprite_quad (newPic : Picture) :
  exists s,
    Sprite.NewSprite newPic = Done s
    /\ Sprite.pic s = Some newPic
    /\ Position <$> Sprite.data s = corners (Bounds_Size newPic)
    /\ Texture <$> Sprite.data s = [pt 0 0; pt 1 0; pt 1 1; pt 0 0; pt 1 1; pt 0 1]
    /\ Forall (fun v => Color v = white) (Sprite.data s)
    /\ Sprite.td s = {| tris := ∅; dirty := true |}.
Proof.
  destruct newPic as [[w h]]. eexists. split; [reflexivity|].
  split; [reflexivity|]. split; [reflexivity|]. split; [reflexivity|].
  split; [|reflexivity]. repeat constructor.
Qed.

(** X17: [SetPicture] on a well-formed sprite returns a well-formed sprite that
    holds the new picture.  Where the size of the new picture is [==] to the
    size of the old one, the buffer and the drawer are as they were; where
    it is not, the positions are the corners of the new picture and the
    drawer is marked dirty. *)
Theorem SetPicture_resizes (s : Sprite.Sprite) (old newPic : Picture) :
  sprite_wellFormed s ->
  Sprite.pic s = Some old ->
  exists s1,
    Sprite.SetPicture s newPic = Done s1
    /\ sprite_wellFormed s1
    /\ Sprite.pic s1 = Some newPic
    /\ if Vec_eqb (Bounds_Size old) (Bounds_Size newPic)
       then Sprite.data s1 = Sprite.data s /\ Sprite.td s1 = Sprite.td s
       else Position <$> Sprite.data s1 = corners (Bounds_Size newPic)
            /\ Sprite.td s1 = TrianglesDrawer_Dirty (Sprite.td s).
Proof.
  intros Hwf Hold.
  destruct (SetPicture_shape s old newPic Hwf Hold) as (s1 & Hs1 & Hwf1 & Hpic & Hcase).
  exists s1. split; [exact Hs1|]. split; [exact Hwf1|]. split; [exact Hpic|exact Hcase].
Qed.

(** X18: Every sprite that the public operations produce is well formed: it has
    six vertices with the texture coordinates and the colour that
    [NewSprite] gave them, at the corners of its current picture. *)
Theorem reachable_sprite_wellFormed (s : Sprite.Sprite) :
  Sprite.reachable s -> sprite_wellFormed s.
Proof.
  intros Hr. induction Hr as [newPic s Hnew|newPic s s1 Hr IH Hset|t s s1 Hr IH Hdraw].
  - destruct (NewSprite_shape newPic) as (s0 & Hs0 & Hwf).
    rewrite Hs0 in Hnew. injection Hnew as <-. exact Hwf.
  - destruct IH as (old & Hold & Hrest).
    destruct (SetPicture_shape s old newPic (ex_intro _ old (conj Hold Hrest)) Hold)
      as (s2 & Hs2 & Hwf & _). rewrite Hs2 in Hset. injection Hset as <-. exact Hwf.
  - unfold Sprite.Draw in Hdraw.
    destruct (TrianglesDrawer_Draw _ _ _); cbn [andThen] in Hdraw; [|discriminate].
    injection Hdraw as <-. exact IH.
Qed.

(** ** Transform *)

Ltac mat3_entries :=
  cbn [mgl32.m0 mgl32.m1 mgl32.m2 mgl32.m3 mgl32.m4 mgl32.m5 mgl32.m6 mgl32.m7 mgl32.m8
       mgl32.v0 mgl32.v1 mgl32.v2].

Lemma Mul3_Ident3_Translate2D (px py : spec_float) :
  Float.finite32 px = true -> Float.finite32 py = true ->
  Mat3_feq (mgl32.Mul3 mgl32.Ident3 (mgl32.Translate2D px py)) (mgl32.Translate2D px py).
Proof.
  intros Hpx Hpy. unfold Mat3_feq, mgl32.Mul3, mgl32.Ident3, mgl32.Translate2D, mgl32.dot3.
  mat3_entries. repeat split; fsimpl; reflexivity.
Qed.

(** Multiplying by a matrix that is the identity up to the sign of its zeros. *)
Lemma Mul3_identity_r (a r : mgl32.Mat3) (sx sy tx ty : spec_float) :
  Mat3_feq a (affine sx sy tx ty) ->
  Mat3_feq r mgl32.Ident3 ->
  Float.finite32 sx = true -> Float.finite32 sy = true ->
  Float.finite32 tx = true -> Float.finite32 ty = true ->
  Mat3_feq (mgl32.Mul3 a r) (affine sx sy tx ty).
Proof.
  intros (H0 & H1 & H2 & H3 & H4 & H5 & H6 & H7 & H8)
         (R0 & R1 & R2 & R3 & R4 & R5 & R6 & R7 & R8) Hsx Hsy Htx Hty.
  unfold affine, mgl32.Ident3 in *.
  cbn [mgl32.m0 mgl32.m1 mgl32.m2 mgl32.m3 mgl32.m4 mgl32.m5 mgl32.m6 mgl32.m7 mgl32.m8] in *.
  unfold Mat3_feq, mgl32.Mul3, mgl32.dot3. mat3_entries.
  rewrite H0, H1, H2, H3, H4, H5, H6, H7, H8, R0, R1, R2, R3, R4, R5, R6, R7, R8.
  repeat split; fsimpl; reflexivity.
Qed.

Lemma Mul3_Translate2D_Scale2D (a : mgl32.Mat3) (px py sx sy : spec_float) :
  Mat3_feq a (mgl32.Translate2D px py) ->
  Float.finite32 px = true -> Float.finite32 py = true ->
  Float.finite32 sx = true -> Float.finite32 sy = true ->
  Mat3_feq (mgl32.Mul3 a (mgl32.Scale2D sx sy)) (affine sx sy px py).
Proof.
  intros (H0 & H1 & H2 & H3 & H4 & H5 & H6 & H7 & H8) Hpx Hpy Hsx Hsy.
  unfold affine, mgl32.Translate2D in *.
  cbn [mgl32.m0 mgl32.m1 mgl32.m2 mgl32.m3 mgl32.m4 mgl32.m5 mgl32.m6 mgl32.m7 mgl32.m8] in *.
  unfold Mat3_feq, mgl32.Mul3, mgl32.Scale2D, mgl32.dot3. mat3_entries.
  rewrite H0, H1, H2, H3, H4, H5, H6, H7, H8.
  repeat split; fsimpl; reflexivity.
Qed.

Lemma Mul3_affine_Translate2D (a : mgl32.Mat3) (sx sy tx ty ax ay : spec_float) :
  Mat3_feq a (affine sx sy tx ty) ->
  Float.finite32 sx = true -> Float.finite32 sy = true ->
  Float.finite32 tx = true -> Float.finite32 ty = true ->
  Float.finite32 ax = true -> Float.finite32 ay = true ->
  Mat3_feq (mgl32.Mul3 a (mgl32.Translate2D ax ay))
    (affine sx sy (Float.add32 (Float.mul32 sx ax) tx) (Float.add32 (Float.mul32 sy ay) ty)).
Proof.
  intros (H0 & H1 & H2 & H3 & H4 & H5 & H6 & H7 & H8) Hsx Hsy Htx Hty Hax Hay.
  unfold affine in *.
  cbn [mgl32.m0 mgl32.m1 mgl32.m2 mgl32.m3 mgl32.m4 mgl32.m5 mgl32.m6 mgl32.m7 mgl32.m8] in *.
  unfold Mat3_feq, mgl32.Mul3, mgl32.Translate2D, mgl32.dot3. mat3_entries.
  rewrite H0, H1, H2, H3, H4, H5, H6, H7, H8.
  repeat split; fsimpl; reflexivity.
Qed.

(** The rotation matrix of an angle zero is the identity up to the sign of
    its zeros. *)
Lemma Rotate3DZ_zero (r : spec_float) :
  Float.is_zero r = true ->
  exists m, mgl32.Rotate3DZ (Float.to32 r) = Some m /\ Mat3_feq m mgl32.Ident3.
Proof.
  destruct r as [[]| | |]; try discriminate; intros _;
    (eexists; split; [reflexivity|]; repeat split; try reflexivity; apply zero_feq).
Qed.

Lemma finitePair_true (p : Float.float32 * Float.float32) :
  finitePair p = true -> Float.finite32 (fst p) = true /\ Float.finite32 (snd p) = true.
Proof. unfold finitePair. intros H. apply andb_true_iff in H. exact H. Qed.

Lemma binary_round_not_nan (prec emax : Z) (s : bool) (m : positive) (e : Z) :
  binary_round prec emax s m e <> S754_nan.
Proof.
  unfold binary_round. destruct (shl_align _ _ _) as [mz ez].
  apply binary_round_aux_not_nan. lia.
Qed.

Lemma mul32_not_nan (x y : spec_float) :
  Float.is_finite x = true -> Float.is_finite y = true -> Float.mul32 x y <> S754_nan.
Proof.
  destruct x as [sx|sx| |sx mx ex], y as [sy|sy| |sy my ey]; try discriminate; intros _ _.
  apply binary_round_aux_not_nan. lia.
Qed.

Lemma add32_not_nan (x y : spec_float) :
  x <> S754_nan -> Float.is_finite y = true -> Float.add32 x y <> S754_nan.
Proof.
  intros Hx Hy. destruct y as [sy|sy| |sy my ey]; try discriminate.
  - destruct x as [[]|sx| |sx mx ex]; try contradiction; destruct sy; discriminate.
  - destruct x as [sx|sx| |sx mx ex]; try contradiction; try discriminate.
    unfold Float.add32, SFadd.
    destruct (_ + _) as [|p|p]; simpl; try discriminate; apply binary_round_not_nan.
Qed.

(** The last step of [Project] and of [Unproject]: an affine matrix applied
    to a point. *)
Lemma apply_affine (mat : mgl32.Mat3) (s tr : Float.float32 * Float.float32) (v : Vec) :
  Mat3_feq mat (affine (fst s) (snd s) (fst tr) (snd tr)) ->
  finitePair s = true -> finitePair tr = true -> finitePair (point32 v) = true ->
  Vec_eqb
    (V (Float.to64 (mgl32.v0 (mgl32.Mul3x1 mat
          (mgl32.vec3 (Float.to32 (X v)) (Float.to32 (Y v)) mgl32.one))))
       (Float.to64 (mgl32.v1 (mgl32.Mul3x1 mat
          (mgl32.vec3 (Float.to32 (X v)) (Float.to32 (Y v)) mgl32.one)))))
    (toVec (mulAdd32 s (point32 v) tr)) = true.
Proof.
  intros Hmat Hs Htr Hv.
  apply finitePair_true in Hs as [Hsx Hsy]. apply finitePair_true in Htr as [Htx Hty].
  apply finitePair_true in Hv as [Hx Hy]. simpl in Hx, Hy.
  destruct (Mul3x1_affine mat _ _ _ _ _ _ Hmat Hx Hy Htx Hty) as [H0 H1].
  unfold Vec_eqb, toVec, mulAdd32, point32, V. cbn [real imag fst snd].
  apply andb_true_iff. split.
  - apply feq_eqb; [rewrite H0; reflexivity|].
    apply to64_not_nan, add32_not_nan; [|apply finite32_is_finite, Htx].
    apply mul32_not_nan; apply finite32_is_finite; assumption.
  - apply feq_eqb; [rewrite H1; reflexivity|].
    apply to64_not_nan, add32_not_nan; [|apply finite32_is_finite, Hty].
    apply mul32_not_nan; apply finite32_is_finite; assumption.
Qed.

Lemma Mat_without_rotation (t : Transform) :
  Float.is_zero (rot t) = true ->
  finitePair (scale32 t) = true -> finitePair (position32 t) = true ->
  finitePair (minusAnchor32 t) = true ->
  exists mat,
    Transform_Mat t = Some mat
    /\ Mat3_feq mat (affine (fst (scale32 t)) (snd (scale32 t))
                            (fst (translation32 t)) (snd (translation32 t))).
Proof.
  intros Hrot Hs Hp Ha.
  apply finitePair_true in Hs as [Hsx Hsy]. apply finitePair_true in Hp as [Hpx Hpy].
  apply finitePair_true in Ha as [Hax Hay]. simpl in Hsx, Hsy, Hpx, Hpy, Hax, Hay.
  unfold Transform_Mat. destruct (Rotate3DZ_zero (rot t) Hrot) as (r & Hr & Hrf). rewrite Hr.
  eexists. split; [reflexivity|].
  apply Mul3_affine_Translate2D; try assumption.
  apply Mul3_Translate2D_Scale2D; try assumption.
  apply (Mul3_identity_r _ r mgl32.one mgl32.one); try assumption; try reflexivity.
  apply Mul3_Ident3_Translate2D; assumption.
Qed.

Lemma InvMat_without_rotation (t : Transform) :
  Float.is_zero (rot t) = true ->
  finitePair (invScale32 t) = true -> finitePair (anchor32 t) = true ->
  finitePair (minusPosition32 t) = true ->
  exists mat,
    Transform_InvMat t = Some mat
    /\ Mat3_feq mat (affine (fst (invScale32 t)) (snd (invScale32 t))
                            (fst (invTranslation32 t)) (snd (invTranslation32 t))).
Proof.
  intros Hrot Hs Ha Hp.
  apply finitePair_true in Hs as [Hsx Hsy]. apply finitePair_true in Ha as [Hax Hay].
  apply finitePair_true in Hp as [Hpx Hpy]. simpl in Hsx, Hsy, Hpx, Hpy, Hax, Hay.
  unfold Transform_InvMat.
  destruct (Rotate3DZ_zero (Float.neg64 (rot t))) as (r & Hr & Hrf).
  { destruct (rot t); try discriminate. reflexivity. }
  rewrite Hr. eexists. split; [reflexivity|].
  apply Mul3_affine_Translate2D; try assumption.
  apply (Mul3_identity_r _ r); try assumption.
  apply Mul3_Translate2D_Scale2D; try assumption.
  apply Mul3_Ident3_Translate2D; assumption.
Qed.

(** X19: [Project] without rotation: where the float32 values it works on are
    finite, the projection is defined and is [==] to
    [sca*v + (sca*(-anc) + pos)], computed in float32 in this order. *)
Theorem Project_without_rotation (t : Transform) (v : Vec) :
  Float.is_zero (rot t) = true ->
  projectIsFinite t v = true ->
  exists w, Transform_Project t v = Some w /\ Vec_eqb w (projectWithoutRotation t v) = true.
Proof.
  intros Hrot Hfin. unfold projectIsFinite in Hfin.
  do 4 (apply andb_true_iff in Hfin as [Hfin ?]).
  destruct (Mat_without_rotation t Hrot) as (mat & Hmat & Hfeq); try assumption.
  unfold Transform_Project. rewrite Hmat. eexists. split; [reflexivity|].
  apply apply_affine; assumption.
Qed.

(** X20: [Unproject] without rotation: where the float32 values it works on are
    finite, the result is defined and is [==] to
    [(1/sca)*v + ((1/sca)*(-pos) + anc)], computed in float32 in this order. *)
Theorem Unproject_without_rotation (t : Transform) (v : Vec) :
  Float.is_zero (rot t) = true ->
  unprojectIsFinite t v = true ->
  exists w, Transform_Unproject t v = Some w /\ Vec_eqb w (unprojectWithoutRotation t v) = true.
Proof.
  intros Hrot Hfin. unfold unprojectIsFinite in Hfin.
  do 4 (apply andb_true_iff in Hfin as [Hfin ?]).
  destruct (InvMat_without_rotation t Hrot) as (mat & Hmat & Hfeq); try assumption.
  unfold Transform_Unproject. rewrite Hmat. eexists. split; [reflexivity|].
  apply apply_affine; assumption.
Qed.

(** *** A float32 survives the conversion to float64 and back *)

Lemma iter_pos_iter {St : Type} (f : St -> St) (n : positive) (x : St) :
  SpecFloat.iter_pos f n x = Pos.iter f x n.
Proof.
  revert x. induction n as [n IH|n IH|]; intros x; simpl.
  - rewrite !IH. rewrite <- !Pos.iter_swap. reflexivity.
  - rewrite !IH. reflexivity.
  - reflexivity.
Qed.

Lemma shr_iter_xO (k m : positive) :
  SpecFloat.iter_pos shr_1 k (Build_shr_record (Z.pos (Pos.iter xO m k)) false false)
  = Build_shr_record (Z.pos m) false false.
Proof.
  rewrite iter_pos_iter. induction k as [|k IH] using Pos.peano_ind.
  - reflexivity.
  - rewrite Pos.iter_succ_r. rewrite Pos.iter_succ. simpl shr_1. exact IH.
Qed.

Lemma digits2_iter_xO (k m : positive) :
  Z.pos (digits2_pos (Pos.iter xO m k)) = Z.pos (digits2_pos m) + Z.pos k.
Proof.
  induction k as [|k IH] using Pos.peano_ind.
  - simpl. lia.
  - rewrite Pos.iter_succ. simpl digits2_pos. rewrite Pos2Z.inj_succ, IH. lia.
Qed.

(** Rounding a number that needs no rounding. *)
Lemma binary_round_aux_exact (prec emax : Z) (s : bool) (m : positive) (e : Z) :
  fexp prec emax (Z.pos (digits2_pos m) + e) = e ->
  e <= emax - prec ->
  binary_round_aux prec emax s (Z.pos m) e loc_Exact = S754_finite s m e.
Proof.
  intros Hc He. unfold binary_round_aux, shr_fexp. cbn [Zdigits2].
  rewrite Hc, Z.sub_diag. cbn [shr shr_record_of_loc shr_m loc_of_shr_record round_nearest_even].
  cbn [Zdigits2]. rewrite Hc, Z.sub_diag. cbn [shr shr_record_of_loc shr_m].
  destruct (Z.leb_spec e (emax - prec)); [reflexivity|lia].
Qed.

Lemma to32_to64 (x : spec_float) : Float.finite32 x = true -> Float.to32 (Float.to64 x) = x.
Proof.
  destruct x as [s|s| |s m e]; try discriminate; intros H; [reflexivity|].
  unfold Float.finite32 in H. simpl in H.
  unfold bounded, canonical_mantissa, Float.prec32, Float.emax32 in H.
  apply andb_true_iff in H as [Hc He]. apply Z.eqb_eq in Hc. apply Z.leb_le in He.
  set (d := Z.pos (digits2_pos m)) in *.
  assert (Hd : 0 < d) by (unfold d; lia).
  assert (Hc24 : d <= 24 /\ -149 <= e) by (unfold fexp, emin in Hc; lia).
  set (e1 := fexp 53 1024 (d + e)).
  assert (He1 : e1 < e /\ e1 <= 1024 - 53) by (unfold e1, fexp, emin; lia).
  destruct (e - e1) as [|k|k] eqn:Hk; try lia.
  (* to64 *)
  assert (H64 : Float.to64 (S754_finite s m e) = S754_finite s (Pos.iter xO m k) e1).
  { unfold Float.to64, binary_round, Float.prec64, Float.emax64. fold d. fold e1.
    unfold shl_align. replace (e1 - e) with (Z.neg k) by lia.
    apply binary_round_aux_exact; [|lia].
    rewrite digits2_iter_xO. fold d. replace (d + Z.pos k + e1) with (d + e) by lia.
    reflexivity. }
  rewrite H64.
  unfold Float.to32, binary_round, Float.prec32, Float.emax32.
  rewrite digits2_iter_xO. fold d. replace (d + Z.pos k + e1) with (d + e) by lia.
  rewrite Hc. unfold shl_align. rewrite Hk.
  unfold binary_round_aux, shr_fexp. cbn [Zdigits2].
  rewrite digits2_iter_xO. fold d. replace (d + Z.pos k + e1) with (d + e) by lia.
  rewrite Hc, Hk. cbn [shr shr_record_of_loc]. rewrite shr_iter_xO.
  cbn [shr_m loc_of_shr_record round_nearest_even Zdigits2]. fold d.
  replace (e1 + Z.pos k) with e by lia. rewrite Hc, Z.sub_diag.
  cbn [shr shr_record_of_loc shr_m].
  destruct (Z.leb_spec e (128 - 24)); [reflexivity|lia].
Qed.

#[export] Instance to32_feq : Proper (feq ==> feq) Float.to32.
Proof.
  intros x x1 [->|[Hx Hx1]]; [reflexivity|].
  destruct x, x1; try discriminate. apply zero_feq.
Qed.

Lemma finite32_feq (x y : spec_float) :
  feq x y -> Float.finite32 y = true -> Float.finite32 x = true.
Proof.
  intros [->|[Hx Hy]] H; [exact H|]. destruct x; try discriminate. reflexivity.
Qed.

Lemma apply_affine_feq (mat : mgl32.Mat3) (s tr : Float.float32 * Float.float32) (v : Vec) :
  Mat3_feq mat (affine (fst s) (snd s) (fst tr) (snd tr)) ->
  finitePair tr = true -> finitePair (point32 v) = true ->
  Vec_feq
    (V (Float.to64 (mgl32.v0 (mgl32.Mul3x1 mat
          (mgl32.vec3 (Float.to32 (X v)) (Float.to32 (Y v)) mgl32.one))))
       (Float.to64 (mgl32.v1 (mgl32.Mul3x1 mat
          (mgl32.vec3 (Float.to32 (X v)) (Float.to32 (Y v)) mgl32.one)))))
    (toVec (mulAdd32 s (point32 v) tr)).
Proof.
  intros Hmat Htr Hv.
  apply finitePair_true in Htr as [Htx Hty]. apply finitePair_true in Hv as [Hx Hy].
  simpl in Hx, Hy.
  destruct (Mul3x1_affine mat _ _ _ _ _ _ Hmat Hx Hy Htx Hty) as [H0 H1].
  unfold Vec_feq, toVec, mulAdd32, point32, V. cbn [real imag fst snd].
  split; [rewrite H0|rewrite H1]; reflexivity.
Qed.

Lemma Vec_feq_eqb (u v : Vec) :
  Vec_feq u v -> real v <> S754_nan -> imag v <> S754_nan -> Vec_eqb u v = true.
Proof.
  intros [Hr Hi] Hnr Hni. unfold Vec_eqb. apply andb_true_iff.
  split; apply feq_eqb; assumption.
Qed.

(** What [Unproject] of [ZT] returns, up to the sign of zero: the point
    rounded to float32. *)
Lemma ZT_Unproject_feq (v : Vec) :
  fits32 v = true ->
  exists w, Transform_Unproject ZT v = Some w /\ Vec_feq w (round32 v).
Proof.
  intros Hfit. unfold fits32 in Hfit. apply andb_true_iff in Hfit as [Hx Hy].
  destruct (InvMat_without_rotation ZT) as (mat & Hmat & Hfeq); try reflexivity.
  unfold Transform_Unproject. rewrite Hmat. eexists. split; [reflexivity|].
  pose proof (apply_affine_feq mat (invScale32 ZT) (invTranslation32 ZT) v Hfeq eq_refl) as Hv.
  destruct Hv as [Hre Him]; [unfold finitePair; simpl; rewrite Hx, Hy; reflexivity|].
  unfold toVec, mulAdd32, point32 in Hre, Him. cbn [fst snd V real imag] in Hre, Him.
  change (fst (invScale32 ZT)) with mgl32.one in Hre.
  change (snd (invScale32 ZT)) with mgl32.one in Him.
  rewrite (mul32_one_l _ Hx) in Hre. rewrite (mul32_one_l _ Hy) in Him.
  rewrite (is_zero_feq (fst (invTranslation32 ZT)) eq_refl) in Hre.
  rewrite (is_zero_feq (snd (invTranslation32 ZT)) eq_refl) in Him.
  rewrite add32_zero_r in Hre, Him.
  split; assumption.
Qed.

(** X21: [ZT.Unproject(v) == v] rounded to float32, for a point whose coordinates
    are finite at single precision. *)
Theorem ZT_Unproject_rounds_to_float32 (v : Vec) :
  fits32 v = true ->
  exists w, Transform_Unproject ZT v = Some w /\ Vec_eqb w (round32 v) = true.
Proof.
  intros Hfit. destruct (ZT_Unproject_feq v Hfit) as (w & Hw & Hfeq).
  exists w. split; [exact Hw|].
  unfold fits32 in Hfit. apply andb_true_iff in Hfit as [Hx Hy].
  apply Vec_feq_eqb; [exact Hfeq| |];
    apply to64_not_nan, finite_not_nan, finite32_is_finite; assumption.
Qed.

Lemma ZT_Unproject_rounds_to_float32_witness :
  exists w, Transform_Unproject ZT (pt 5 (-3)) = Some w /\ Vec_eqb w (round32 (pt 5 (-3))) = true.
Proof. apply (ZT_Unproject_rounds_to_float32 (pt 5 (-3))). vm_compute. reflexivity. Defined.

(** What [Project] of [ZT] returns, up to the sign of zero. *)
Lemma ZT_Project_feq (v : Vec) :
  fits32 v = true ->
  exists w, Transform_Project ZT v = Some w /\ Vec_feq w (round32 v).
Proof.
  intros Hfit. unfold fits32 in Hfit. apply andb_true_iff in Hfit as [Hx Hy].
  destruct (Mat_without_rotation ZT) as (mat & Hmat & Hfeq); try reflexivity.
  unfold Transform_Project. rewrite Hmat. eexists. split; [reflexivity|].
  pose proof (apply_affine_feq mat (scale32 ZT) (translation32 ZT) v Hfeq eq_refl) as Hv.
  destruct Hv as [Hre Him]; [unfold finitePair; simpl; rewrite Hx, Hy; reflexivity|].
  unfold toVec, mulAdd32, point32 in Hre, Him. cbn [fst snd V real imag] in Hre, Him.
  change (fst (scale32 ZT)) with mgl32.one in Hre.
  change (snd (scale32 ZT)) with mgl32.one in Him.
  rewrite (mul32_one_l _ Hx) in Hre. rewrite (mul32_one_l _ Hy) in Him.
  rewrite (is_zero_feq (fst (translation32 ZT)) eq_refl) in Hre.
  rewrite (is_zero_feq (snd (translation32 ZT)) eq_refl) in Him.
  rewrite add32_zero_r in Hre, Him.
  split; assumption.
Qed.

(** X22: The round trip through [ZT]: [ZT.Unproject(ZT.Project(v))] is defined and
    is [==] to [v] rounded to float32; the second conversion to float32 loses
    nothing. *)
Theorem ZT_Unproject_Project (v : Vec) :
  fits32 v = true ->
  exists w u,
    Transform_Project ZT v = Some w
    /\ Transform_Unproject ZT w = Some u
    /\ Vec_eqb u (round32 v) = true.
Proof.
  intros Hfit. destruct (ZT_Project_feq v Hfit) as (w & Hw & [Hre Him]).
  unfold fits32 in Hfit. apply andb_true_iff in Hfit as [Hx Hy].
  unfold round32, V in Hre, Him. cbn [real imag] in Hre, Him.
  assert (Hwx : feq (Float.to32 (X w)) (Float.to32 (X v))).
  { unfold X. rewrite Hre. rewrite to32_to64 by exact Hx. reflexivity. }
  assert (Hwy : feq (Float.to32 (Y w)) (Float.to32 (Y v))).
  { unfold Y. rewrite Him. rewrite to32_to64 by exact Hy. reflexivity. }
  destruct (ZT_Unproject_feq w) as (u & Hu & [Hure Huim]).
  { unfold fits32. rewrite (finite32_feq _ _ Hwx Hx), (finite32_feq _ _ Hwy Hy). reflexivity. }
  exists w, u. split; [exact Hw|]. split; [exact Hu|].
  unfold round32, V in Hure, Huim. cbn [real imag] in Hure, Huim.
  rewrite Hwx in Hure. rewrite Hwy in Huim.
  apply Vec_feq_eqb; [split; assumption| |];
    apply to64_not_nan, finite_not_nan, finite32_is_finite; assumption.
Qed.

Lemma ZT_Unproject_Project_witness :
  exists w u,
    Transform_Project ZT (V tenth (Float.const64 3)) = Some w
    /\ Transform_Unproject ZT w = Some u
    /\ Vec_eqb u (round32 (V tenth (Float.const64 3))) = true.
Proof. apply (ZT_Unproject_Project (V tenth (Float.const64 3))). vm_compute. reflexivity. Defined.

(** X23: A camera unprojects the origin, that is the centre of the screen, to its
    centre rounded to float32, where the float32 inverse of its scale and its
    centre are finite. *)
Theorem Camera_Unproject_origin (center zoom screenSize : Vec) :
  finitePair (invScale32 (Camera center zoom screenSize)) = true ->
  fits32 center = true ->
  exists w,
    Transform_Unproject (Camera center zoom screenSize) (pt 0 0) = Some w
    /\ Vec_eqb w (round32 center) = true.
Proof.
  intros Hs Hfit. unfold fits32 in Hfit. apply andb_true_iff in Hfit as [Hx Hy].
  set (t := Camera center zoom screenSize) in *.
  assert (Ha : finitePair (anchor32 t) = true).
  { unfold finitePair, anchor32. cbn [fst snd]. change (anc t) with center.
    rewrite Hx, Hy. reflexivity. }
  destruct (InvMat_without_rotation t) as (mat & Hmat & Hfeq); try reflexivity; try assumption.
  pose proof (finitePair_true _ Hs) as [Hsx Hsy].
  assert (Htx : feq (fst (invTranslation32 t)) (Float.to32 (X center))).
  { unfold invTranslation32, mulAdd32. cbn [fst snd].
    change (fst (anchor32 t)) with (Float.to32 (X center)).
    change (fst (minusPosition32 t)) with (S754_zero true).
    rewrite (is_zero_feq (S754_zero true) eq_refl).
    rewrite mul32_zero_r by (apply finite32_is_finite; exact Hsx).
    rewrite add32_zero_l. reflexivity. }
  assert (Hty : feq (snd (invTranslation32 t)) (Float.to32 (Y center))).
  { unfold invTranslation32, mulAdd32. cbn [fst snd].
    change (snd (anchor32 t)) with (Float.to32 (Y center)).
    change (snd (minusPosition32 t)) with (S754_zero true).
    rewrite (is_zero_feq (S754_zero true) eq_refl).
    rewrite mul32_zero_r by (apply finite32_is_finite; exact Hsy).
    rewrite add32_zero_l. reflexivity. }
  unfold Transform_Unproject. rewrite Hmat. eexists. split; [reflexivity|].
  pose proof (apply_affine_feq mat (invScale32 t) (invTranslation32 t) (pt 0 0) Hfeq) as Hv.
  destruct Hv as [Hre Him].
  { unfold finitePair. rewrite (finite32_feq _ _ Htx Hx), (finite32_feq _ _ Hty Hy). reflexivity. }
  { reflexivity. }
  unfold toVec, mulAdd32 in Hre, Him. cbn [fst snd V real imag] in Hre, Him.
  change (fst (point32 (pt 0 0))) with mgl32.zero in Hre.
  change (snd (point32 (pt 0 0))) with mgl32.zero in Him.
  rewrite mul32_zero_r, add32_zero_l, Htx in Hre by (apply finite32_is_finite; exact Hsx).
  rewrite mul32_zero_r, add32_zero_l, Hty in Him by (apply finite32_is_finite; exact Hsy).
  apply Vec_feq_eqb; [split; assumption| |];
    apply to64_not_nan, finite_not_nan, finite32_is_finite; assumption.
Qed.

Lemma Camera_Unproject_origin_witness :
  exists w,
    Transform_Unproject (Camera (pt 10 10) (pt 2 2) (pt 800 600)) (pt 0 0) = Some w
    /\ Vec_eqb w (round32 (pt 10 10)) = true.
Proof.
  apply (Camera_Unproject_origin (pt 10 10) (pt 2 2) (pt 800 600)); vm_compute; reflexivity.
Defined.

Lemma Project_without_rotation_witness :
  exists w,
    Transform_Project (Transform_Position (Camera (pt 10 10) (pt 2 2) (pt 800 600)) (pt 1 1))
      (pt 110 10) = Some w
    /\ Vec_eqb w (projectWithoutRotation
                    (Transform_Position (Camera (pt 10 10) (pt 2 2) (pt 800 600)) (pt 1 1))
                    (pt 110 10)) = true.
Proof. apply Project_without_rotation; vm_compute; reflexivity. Defined.

Lemma Unproject_without_rotation_witness :
  exists w,
    Transform_Unproject (Transform_Position (Camera (pt 10 10) (pt 2 2) (pt 800 600)) (pt 1 1))
      (pt 1 2) = Some w
    /\ Vec_eqb w (unprojectWithoutRotation
                    (Transform_Position (Camera (pt 10 10) (pt 2 2) (pt 800 600)) (pt 1 1))
                    (pt 1 2)) = true.
Proof. apply Unproject_without_rotation; vm_compute; reflexivity. Defined.

(** *** The setters *)

(** X24: Each method changes the one field it is named after, so that two methods
    of different fields can be chained in either order; two methods of the
    same field cannot in general, as [Position] and [AddPosition] show. *)
Theorem chaining_order (o1 o2 : TransformOp) (t : Transform) :
  (fieldOf o1 <> FieldPosition -> Transform_GetPosition (runOp o1 t) = Transform_GetPosition t)
  /\ (fieldOf o1 <> FieldAnchor -> Transform_GetAnchor (runOp o1 t) = Transform_GetAnchor t)
  /\ (fieldOf o1 <> FieldScale -> Transform_GetScaleXY (runOp o1 t) = Transform_GetScaleXY t)
  /\ (fieldOf o1 <> FieldRotation -> Transform_GetRotation (runOp o1 t) = Transform_GetRotation t)
  /\ (fieldOf o1 <> fieldOf o2 -> runOp o1 (runOp o2 t) = runOp o2 (runOp o1 t)).
Proof.
  repeat split; intros H; destruct o1; try reflexivity; try (destruct H; reflexivity);
    destruct o2; try reflexivity; destruct H; reflexivity.
Qed.

Lemma chaining_order_witness :
  runOp (OpRotation tenth) (runOp (OpAddPosition (pt 1 2)) ZT)
  = runOp (OpAddPosition (pt 1 2)) (runOp (OpRotation tenth) ZT)
  /\ Transform_GetAnchor (runOp (OpRotation tenth) ZT) = Transform_GetAnchor ZT.
Proof.
  split.
  - apply (chaining_order (OpRotation tenth) (OpAddPosition (pt 1 2)) ZT). discriminate.
  - apply (chaining_order (OpRotation tenth) (OpAddPosition (pt 1 2)) ZT). discriminate.
Defined.

(** [Position] and [AddPosition] do not commute. *)
Example same_field_order_matters :
  runOp (OpPosition (pt 5 5)) (runOp (OpAddPosition (pt 1 2)) ZT)
  <> runOp (OpAddPosition (pt 1 2)) (runOp (OpPosition (pt 5 5)) ZT).
Proof. vm_compute. discriminate. Qed.

(** ** Slices *)

Lemma elements_lookup (arr : list Vertex) (s : slice) (n : nat) :
  elements arr s !! n = if decide (n < len s)%nat then arr !! (offset s + n)%nat else None.
Proof.
  unfold elements. destruct (decide (n < len s)%nat) as [Hn|Hn].
  - rewrite lookup_take_lt by exact Hn. apply lookup_drop.
  - apply lookup_take_ge. lia.
Qed.

Lemma writeThrough_lookup (arr : list Vertex) (s : slice) (new : TrianglesData) (m : nat) :
  length new = len s -> (offset s + len s <= length arr)%nat ->
  writeThrough arr s new !! m =
    if decide (m < offset s)%nat then arr !! m
    else if decide (m < offset s + len s)%nat then new !! (m - offset s)%nat
    else arr !! m.
Proof.
  intros Hnew Hfit. unfold writeThrough.
  assert (Htake : length (take (offset s) arr) = offset s) by (rewrite length_take; lia).
  destruct (decide (m < offset s)%nat) as [H1|H1].
  - rewrite lookup_app_l by lia. apply lookup_take_lt. exact H1.
  - rewrite lookup_app_r by lia. rewrite Htake.
    destruct (decide (m < offset s + len s)%nat) as [H2|H2].
    + rewrite lookup_app_l by lia. reflexivity.
    + rewrite lookup_app_r by lia. rewrite lookup_drop. f_equal. lia.
Qed.

(** X8: [Slice(i, j)] within the length of a slice returns a view on its
    elements [i] to [j-1], and the view is not a copy: an [Update] of the
    view with a source of its length returns, and the elements of the
    parent are then its elements before [i], the updated elements, and its
    elements from [j] on. *)
Theorem Slice_aliases_parent (arr : list Vertex) (parent : slice) (i j : Z) :
  validSlice arr parent ->
  0 <= i <= j -> j <= Z.of_nat (len parent) ->
  exists view,
    TrianglesData_Slice parent i j = Some view
    /\ validSlice arr view
    /\ elements arr view
       = take (Z.to_nat (j - i)) (drop (Z.to_nat i) (elements arr parent))
    /\ forall t : Triangles, Triangles_Len t = j - i ->
         exists arr1,
           Slice_Update arr view t = Done arr1
           /\ length arr1 = length arr
           /\ elements arr1 view = updateData (elements arr view) t
           /\ elements arr1 parent
              = take (Z.to_nat i) (elements arr parent)
                ++ updateData (elements arr view) t
                ++ drop (Z.to_nat j) (elements arr parent).
Proof.
  intros [Hlc Hfit] [Hi Hij] Hj.
  unfold TrianglesData_Slice.
  destruct (Z.leb_spec 0 i); [|lia]. destruct (Z.leb_spec i j); [|lia].
  destruct (Z.leb_spec j (Z.of_nat (cap parent))); [|lia]. simpl.
  set (view := {| offset := offset parent + Z.to_nat i; len := Z.to_nat (j - i);
                  cap := cap parent - Z.to_nat i |}).
  assert (Hview : elements arr view
                  = take (Z.to_nat (j - i)) (drop (Z.to_nat i) (elements arr parent))).
  { apply list_eq. intros n. rewrite elements_lookup. simpl.
    destruct (decide (n < Z.to_nat (j - i))%nat) as [Hn|Hn].
    - rewrite lookup_take_lt by exact Hn. rewrite lookup_drop, elements_lookup.
      destruct (decide (Z.to_nat i + n < len parent)%nat); [|lia]. f_equal. lia.
    - symmetry. apply lookup_take_ge. lia. }
  assert (Hlen : length (elements arr view) = Z.to_nat (j - i)).
  { unfold elements. simpl. rewrite length_take, length_drop. lia. }
  exists view. split; [reflexivity|]. split; [unfold validSlice; simpl; lia|].
  split; [exact Hview|].
  intros t Ht. unfold Slice_Update, TrianglesData_Update, TrianglesData_Len.
  rewrite Hlen, Ht. replace (Z.of_nat (Z.to_nat (j - i))) with (j - i) by lia.
  rewrite Z.eqb_refl. simpl negb. cbv iota. cbn [andThen].
  set (new := updateData (elements arr view) t).
  assert (Hnew : length new = len view) by (unfold new; rewrite updateData_length; exact Hlen).
  assert (Hfitv : (offset view + len view <= length arr)%nat) by (simpl; lia).
  eexists. split; [reflexivity|]. split; [|split].
  - unfold writeThrough. rewrite !length_app, length_take, length_drop, Hnew. lia.
  - apply list_eq. intros n. rewrite elements_lookup.
    destruct (decide (n < len view)%nat) as [Hn|Hn].
    + rewrite writeThrough_lookup by assumption.
      destruct (decide (offset view + n < offset view)%nat); [lia|].
      destruct (decide (offset view + n < offset view + len view)%nat); [|lia].
      f_equal. lia.
    + symmetry. apply lookup_ge_None. lia.
  - apply list_eq. intros n. rewrite elements_lookup.
    assert (Hpre : length (take (Z.to_nat i) (elements arr parent)) = Z.to_nat i).
    { unfold elements. rewrite !length_take, length_drop. lia. }
    destruct (decide (n < len parent)%nat) as [Hn|Hn].
    + rewrite writeThrough_lookup by assumption. simpl offset. simpl len.
      destruct (decide (n < Z.to_nat i)%nat) as [Hlo|Hlo].
      * destruct (decide (offset parent + n < offset parent + Z.to_nat i)%nat); [|lia].
        rewrite lookup_app_l by lia. rewrite lookup_take_lt by exact Hlo.
        rewrite elements_lookup. destruct (decide (n < len parent)%nat); [reflexivity|lia].
      * destruct (decide (offset parent + n < offset parent + Z.to_nat i)%nat); [lia|].
        rewrite lookup_app_r by lia. rewrite Hpre.
        destruct (decide (n < Z.to_nat j)%nat) as [Hhi|Hhi].
        -- destruct (decide (offset parent + n
                             < offset parent + Z.to_nat i + Z.to_nat (j - i))%nat); [|lia].
           rewrite lookup_app_l by (simpl in Hnew; lia). f_equal. lia.
        -- destruct (decide (offset parent + n
                             < offset parent + Z.to_nat i + Z.to_nat (j - i))%nat); [lia|].
           rewrite lookup_app_r by (simpl in Hnew; lia). rewrite lookup_drop, elements_lookup.
           simpl in Hnew. rewrite Hnew.
           replace (Z.to_nat j + (n - Z.to_nat i - Z.to_nat (j - i)))%nat with n by lia.
           destruct (decide (n < len parent)%nat); [reflexivity|lia].
    + symmetry. apply lookup_ge_None.
      rewrite !length_app, Hpre, length_drop. simpl in Hnew. rewrite Hnew.
      unfold elements. rewrite length_take, length_drop. lia.
Qed.

Lemma reachable_sprite_wellFormed_witness : sprite_wellFormed sprite8x4.
Proof.
  apply (reachable_sprite_wellFormed sprite8x4).
  apply (Sprite.reachable_new picture8x4). reflexivity.
Defined.

Lemma SetPicture_resizes_witness :
  exists s1,
    Sprite.SetPicture sprite8x4 picture2x2 = Done s1
    /\ sprite_wellFormed s1
    /\ Sprite.pic s1 = Some picture2x2
    /\ Position <$> Sprite.data s1 = corners (Bounds_Size picture2x2)
    /\ Sprite.td s1 = TrianglesDrawer_Dirty (Sprite.td sprite8x4).
Proof.
  destruct (SetPicture_resizes sprite8x4 picture8x4 picture2x2) as (s1 & Hs1 & Hwf & Hpic & Hcase).
  - exists picture8x4. split; [reflexivity|]. split; [reflexivity|]. split; [reflexivity|].
    apply Forall2_Vec_feq_refl.
  - reflexivity.
  - exists s1. split; [exact Hs1|]. split; [exact Hwf|]. split; [exact Hpic|].
    exact Hcase.
Defined.

Lemma Slice_aliases_parent_witness :
  exists view,
    TrianglesData_Slice wholeSlice 1 3 = Some view
    /\ validSlice fourVertices view
    /\ elements fourVertices view
       = take (Z.to_nat (3 - 1)) (drop (Z.to_nat 1) (elements fourVertices wholeSlice))
    /\ forall t : Triangles, Triangles_Len t = 3 - 1 ->
         exists arr1,
           Slice_Update fourVertices view t = Done arr1
           /\ length arr1 = length fourVertices
           /\ elements arr1 view = updateData (elements fourVertices view) t
           /\ elements arr1 wholeSlice
              = take (Z.to_nat 1) (elements fourVertices wholeSlice)
                ++ updateData (elements fourVertices view) t
                ++ drop (Z.to_nat 3) (elements fourVertices wholeSlice).
Proof.
  apply (Slice_aliases_parent fourVertices wholeSlice 1 3).
  - unfold validSlice. simpl. lia.
  - lia.
  - simpl. lia.
Defined.
